(** * OpenCPX Go SDK: posture model, aggregation, serialization, handler

    A shallow embedding of the Go SDK of OpenCPX (package [cpx]):
    - the status vocabularies and the document structs,
    - the builder methods on [*Posture],
    - [CalculateOverallPosture],
    - [ToJSON] / [ToJSONIndent], through a model of what [encoding/json]
      does with the structs' field tags,
    - the HTTP [Handler].

    Go values are modelled as follows.  A [string] is a [string]; a
    [float64] is a primitive [float]; a pointer that may be nil is an
    [option]; a slice is an [option (list _)] whose [None] is the nil
    slice; a [map[string]T] that may be nil is an [option (gmap string _)];
    an [interface{}] holds a [GoValue].  A method with a pointer receiver
    is a state transformer over the pointee. *)

From Stdlib Require Import ZArith String Ascii List Floats.PrimFloat.
From stdpp Require Import base option list gmap strings sorting.

Set Warnings "-inexact-float,-register-all,-clear-no-such-hyp".
Local Open Scope string_scope.
Local Open Scope list_scope.

(** ** Status vocabularies *)

(** [const Version = "v1"] *)
Definition Version : string := "v1".

(** [type CompliancePosture string] *)
Definition CompliancePosture : Type := string.

Definition PostureCompliant : CompliancePosture := "compliant".
Definition PosturePartiallyCompliant : CompliancePosture := "partially_compliant".
Definition PostureNonCompliant : CompliancePosture := "non_compliant".
Definition PostureUnknown : CompliancePosture := "unknown".

(** [type FrameworkStatus string] *)
Definition FrameworkStatus : Type := string.

Definition StatusCompliant : FrameworkStatus := "compliant".
Definition StatusPartial : FrameworkStatus := "partial".
Definition StatusNonCompliant : FrameworkStatus := "non_compliant".

(** [type ControlStatus string] *)
Definition ControlStatus : Type := string.

Definition ControlCompliant : ControlStatus := "compliant".
Definition ControlPartial : ControlStatus := "partial".
Definition ControlNonCompliant : ControlStatus := "non_compliant".

(** ** Go runtime values *)

(** A [time.Location]: UTC, or some other zone (a name and its offset in
    seconds east of UTC). *)
Inductive Location : Type :=
| UTC
| Zone (name : string) (offset : Z).

(** A [time.Time]: the wall-clock instant in nanoseconds since the Unix
    epoch, the optional monotonic clock reading, and the location. *)
Record Time : Type := mkTime {
  wall : Z;
  monotonic : option Z;
  location : Location
}.

(** [t.UTC()]: same instant, location UTC; setting the location strips
    the monotonic reading. *)
Definition Time_UTC (t : Time) : Time :=
  {| wall := wall t; monotonic := None; location := UTC |}.

(** Slices.  [None] is the nil slice. *)
Definition slice (A : Type) : Type := option (list A).

Definition elems {A : Type} (s : slice A) : list A := default [] s.

Definition len {A : Type} (s : slice A) : nat := length (elems s).

(** [append(s, x)]: the result is never nil. *)
Definition append {A : Type} (s : slice A) (x : A) : slice A :=
  Some (elems s ++ [x]).

(** What an [interface{}] can hold, as [encoding/json] sees it through
    reflection.  [VNil] is a nil interface, pointer, slice or map;
    [VSlice] and [VMap] are non-nil; a struct is the list of its exported
    fields, each with the name and the [omitempty] flag of its [json]
    tag, in declaration order. *)
Inductive GoValue : Type :=
| VNil
| VBool (b : bool)
| VInt (z : Z)
| VFloat (f : float)
| VString (s : string)
| VTime (t : Time)
| VSlice (l : list GoValue)
| VMap (m : gmap string GoValue)
| VStruct (fields : list (string * bool * GoValue)).

(** ** Document structs *)

Record Organization : Type := mkOrganization {
  Organization_Name : string;
  Organization_Domain : string;
  Organization_Contact : string
}.

Record Control : Type := mkControl {
  Control_ID : string;
  Control_Title : string;
  Control_Status : ControlStatus;
  Control_Reason : string;
  Control_RemediationDate : string;
  Control_EvidenceRefs : slice string
}.

Record Framework : Type := mkFramework {
  Framework_Name : string;
  Framework_Version : string;
  Framework_Status : FrameworkStatus;
  Framework_Score : float;
  Framework_LastAudit : string;
  Framework_Auditor : string;
  Framework_ReportRef : string;
  Framework_CertificateRef : string;
  Framework_Controls : slice Control
}.

Record EvidenceRef : Type := mkEvidenceRef {
  EvidenceRef_Type : string;
  EvidenceRef_Description : string;
  EvidenceRef_URL : string;
  EvidenceRef_Expires : string;
  EvidenceRef_Hash : string;
  EvidenceRef_SizeBytes : Z
}.

Record Posture : Type := mkPosture {
  Posture_Version : string;
  Posture_Timestamp : Time;
  Posture_CompliancePosture : CompliancePosture;
  Posture_Organization : option Organization;
  Posture_Frameworks : slice Framework;
  Posture_EvidenceRefs : slice GoValue;
  Posture_Extensions : option (gmap string GoValue)
}.

(** ** Methods with a pointer receiver *)

(** Code that reads and writes an object of type [S] and returns an [A]. *)
Definition state (S A : Type) : Type := S -> A * S.

#[global] Instance state_ret {S : Type} : MRet (state S) := fun A a s => (a, s).

#[global] Instance state_bind {S : Type} : MBind (state S) :=
  fun A B f m s => let '(a, s') := m s in f a s'.

(** A method on [*Posture] reads and writes the pointee and returns a
    result. *)
Abbreviation method := (state Posture).

(** Reading a field of the receiver. *)
Definition load {A : Type} (field : Posture -> A) : method A :=
  fun p => (field p, p).

(** Assignments to the fields of the receiver that the methods write. *)
Definition store_CompliancePosture (c : CompliancePosture) : method unit :=
  fun p => (tt, {| Posture_Version := Posture_Version p;
                   Posture_Timestamp := Posture_Timestamp p;
                   Posture_CompliancePosture := c;
                   Posture_Organization := Posture_Organization p;
                   Posture_Frameworks := Posture_Frameworks p;
                   Posture_EvidenceRefs := Posture_EvidenceRefs p;
                   Posture_Extensions := Posture_Extensions p |}).

Definition store_Organization (o : option Organization) : method unit :=
  fun p => (tt, {| Posture_Version := Posture_Version p;
                   Posture_Timestamp := Posture_Timestamp p;
                   Posture_CompliancePosture := Posture_CompliancePosture p;
                   Posture_Organization := o;
                   Posture_Frameworks := Posture_Frameworks p;
                   Posture_EvidenceRefs := Posture_EvidenceRefs p;
                   Posture_Extensions := Posture_Extensions p |}).

Definition store_Frameworks (fs : slice Framework) : method unit :=
  fun p => (tt, {| Posture_Version := Posture_Version p;
                   Posture_Timestamp := Posture_Timestamp p;
                   Posture_CompliancePosture := Posture_CompliancePosture p;
                   Posture_Organization := Posture_Organization p;
                   Posture_Frameworks := fs;
                   Posture_EvidenceRefs := Posture_EvidenceRefs p;
                   Posture_Extensions := Posture_Extensions p |}).

Definition store_Extensions (e : option (gmap string GoValue)) : method unit :=
  fun p => (tt, {| Posture_Version := Posture_Version p;
                   Posture_Timestamp := Posture_Timestamp p;
                   Posture_CompliancePosture := Posture_CompliancePosture p;
                   Posture_Organization := Posture_Organization p;
                   Posture_Frameworks := Posture_Frameworks p;
                   Posture_EvidenceRefs := Posture_EvidenceRefs p;
                   Posture_Extensions := e |}).

(** The receiver after a method ran, and the method's result. *)
Definition receiver_after {A : Type} (m : method A) (p : Posture) : Posture :=
  snd (m p).

Definition result_of {A : Type} (m : method A) (p : Posture) : A :=
  fst (m p).

(** ** Constructors and builder methods *)

(** [NewPosture()].  [now] is what [time.Now()] returns at the call.  The
    composite literal sets [Version], [Timestamp] and [Frameworks]; every
    other field keeps its zero value. *)
Definition NewPosture (now : Time) : Posture :=
  {| Posture_Version := Version;
     Posture_Timestamp := Time_UTC now;
     Posture_CompliancePosture := "";
     Posture_Organization := None;
     Posture_Frameworks := Some [];
     Posture_EvidenceRefs := None;
     Posture_Extensions := None |}.

(** [p.AddFramework(f)] *)
Definition AddFramework (f : Framework) : method unit :=
  fs ← load Posture_Frameworks;
  store_Frameworks (append fs f).

(** [p.SetOrganization(org)] *)
Definition SetOrganization (org : Organization) : method unit :=
  store_Organization (Some org).

(** [p.SetPosture(posture)] *)
Definition SetPosture (posture : CompliancePosture) : method unit :=
  store_CompliancePosture posture.

(** [p.AddExtension(key, value)]: the map is made on the first call. *)
Definition AddExtension (key : string) (value : GoValue) : method unit :=
  e ← load Posture_Extensions;
  _ ← match e with
      | None => store_Extensions (Some ∅)
      | Some _ => mret tt
      end;
  e' ← load Posture_Extensions;
  store_Extensions (insert key value <$> e').

(** [NewFramework(name, status, score)] *)
Definition NewFramework (name : string) (status : FrameworkStatus)
    (score : float) : Framework :=
  {| Framework_Name := name;
     Framework_Version := "";
     Framework_Status := status;
     Framework_Score := score;
     Framework_LastAudit := "";
     Framework_Auditor := "";
     Framework_ReportRef := "";
     Framework_CertificateRef := "";
     Framework_Controls := Some [] |}.

(** [f.AddControl(c)], on the pointee [f]. *)
Definition AddControl (c : Control) (f : Framework) : Framework :=
  {| Framework_Name := Framework_Name f;
     Framework_Version := Framework_Version f;
     Framework_Status := Framework_Status f;
     Framework_Score := Framework_Score f;
     Framework_LastAudit := Framework_LastAudit f;
     Framework_Auditor := Framework_Auditor f;
     Framework_ReportRef := Framework_ReportRef f;
     Framework_CertificateRef := Framework_CertificateRef f;
     Framework_Controls := append (Framework_Controls f) c |}.

(** [NewControl(id, status)] *)
Definition NewControl (id : string) (status : ControlStatus) : Control :=
  {| Control_ID := id;
     Control_Title := "";
     Control_Status := status;
     Control_Reason := "";
     Control_RemediationDate := "";
     Control_EvidenceRefs := None |}.

(** ** Aggregation *)

(** One iteration of the loop of [CalculateOverallPosture], on the two
    flags [(allCompliant, anyCompliant)]. *)
Definition posture_loop_body (flags : bool * bool) (f : Framework) : bool * bool :=
  let '(allCompliant, anyCompliant) := flags in
  if String.eqb (Framework_Status f) StatusCompliant
  then (allCompliant, true)
  else (false, anyCompliant).

(** [p.CalculateOverallPosture()] *)
Definition CalculateOverallPosture : method CompliancePosture :=
  fs ← load Posture_Frameworks;
  if Nat.eqb (len fs) 0 then mret PostureUnknown
  else
    let '(allCompliant, anyCompliant) :=
      fold_left posture_loop_body (elems fs) (true, false) in
    if allCompliant then mret PostureCompliant
    else if anyCompliant then mret PosturePartiallyCompliant
    else mret PostureNonCompliant.

(** The aggregation algorithm as the specification words it, on the list
    of frameworks. *)
Definition spec_aggregate (fs : list Framework) : CompliancePosture :=
  match fs with
  | [] => PostureUnknown
  | _ :: _ =>
      let allCompliant :=
        forallb (fun f => String.eqb (Framework_Status f) StatusCompliant) fs in
      let anyCompliant :=
        existsb (fun f => String.eqb (Framework_Status f) StatusCompliant) fs in
      if allCompliant then PostureCompliant
      else if anyCompliant then PosturePartiallyCompliant
      else PostureNonCompliant
  end.

(** ** JSON documents *)

(** A JSON number keeps the Go number it was made from; its decimal text
    is [strconv]'s business. *)
Inductive number : Type :=
| NInt (z : Z)
| NFloat (f : float).

(** A JSON document, with the members of an object in output order. *)
Inductive json : Type :=
| JNull
| JBool (b : bool)
| JNumber (n : number)
| JString (s : string)
| JArray (items : list json)
| JObject (members : list (string * json)).

(** The keys of an object's members, in output order. *)
Definition keys (members : list (string * json)) : list string :=
  map fst members.

(** The value of the first member with key [k]. *)
Fixpoint member (k : string) (members : list (string * json)) : option json :=
  match members with
  | [] => None
  | (k', j) :: rest => if String.eqb k k' then Some j else member k rest
  end.

(** ** [encoding/json] on the values above *)

(** [isEmptyValue]: what an [omitempty] field tag leaves out. *)
Definition isEmptyValue (v : GoValue) : bool :=
  match v with
  | VNil => true
  | VBool b => negb b
  | VInt z => Z.eqb z 0
  | VFloat f => PrimFloat.eqb f 0
  | VString s => Nat.eqb (String.length s) 0
  | VSlice l => Nat.eqb (length l) 0
  | VMap m => Nat.eqb (size m) 0
  | VTime _ => false
  | VStruct _ => false
  end.

(** The order in which a map's entries are written: by key, bytewise. *)
Definition key_le {A : Type} (a b : string * A) : Prop :=
  String.leb (fst a) (fst b) = true.

#[global] Instance key_le_dec {A : Type} : RelDecision (@key_le A).
Proof. intros a b. unfold key_le. apply bool_eq_dec. Defined.

(** *** Strings on the wire *)

(** The byte [c] lies between [lo] and [hi]. *)
Definition byte_in (lo hi : nat) (c : ascii) : bool :=
  Nat.leb lo (nat_of_ascii c) && Nat.leb (nat_of_ascii c) hi.

(** [utf8.DecodeRuneInString] on [s], as far as [encoding/json] uses it:
    the number of bytes of the UTF-8 encoding that [s] starts with, or 0
    when [s] does not start with one (Go returns [RuneError] with width
    1 there).  The second byte's range depends on the first byte, which
    shuts out overlong encodings, surrogates and code points above
    U+10FFFF. *)
Definition rune_size (s : string) : nat :=
  match s with
  | EmptyString => 0
  | String c0 rest =>
      if byte_in 0 127 c0 then 1
      else if byte_in 194 223 c0 then
        match rest with
        | String c1 _ => if byte_in 128 191 c1 then 2 else 0
        | _ => 0
        end
      else if byte_in 224 239 c0 then
        match rest with
        | String c1 (String c2 _) =>
            if (if byte_in 224 224 c0 then byte_in 160 191 c1
                else if byte_in 237 237 c0 then byte_in 128 159 c1
                else byte_in 128 191 c1)
               && byte_in 128 191 c2
            then 3 else 0
        | _ => 0
        end
      else if byte_in 240 244 c0 then
        match rest with
        | String c1 (String c2 (String c3 _)) =>
            if (if byte_in 240 240 c0 then byte_in 144 191 c1
                else if byte_in 244 244 c0 then byte_in 128 143 c1
                else byte_in 128 191 c1)
               && byte_in 128 191 c2 && byte_in 128 191 c3
            then 4 else 0
        | _ => 0
        end
      else 0
  end.

(** U+FFFD, the replacement character, in UTF-8. *)
Definition replacement : string :=
  String "239"%char (String "191"%char (String "189"%char EmptyString)).

(** The text of the JSON string that [encoding/json] writes for a Go
    string: the string itself, with every byte that is not part of a
    valid UTF-8 encoding replaced by U+FFFD.  [skip] counts the bytes
    still to copy of the encoding being read. *)
Fixpoint json_text_from (skip : nat) (s : string) : string :=
  match s with
  | EmptyString => EmptyString
  | String c rest =>
      match skip with
      | S k => String c (json_text_from k rest)
      | O =>
          match rune_size s with
          | O => String.append replacement (json_text_from 0 rest)
          | S k => String c (json_text_from k rest)
          end
      end
  end.

Definition json_text (s : string) : string := json_text_from 0 s.

(** A Go string that is valid UTF-8 is written as it is. *)
Definition valid_UTF8 (s : string) : Prop := json_text s = s.

(** An entry of a map, written under the text of its key; an entry whose
    value failed to encode fails the whole map. *)
Definition encoded_entry (e : string * option json) : option (string * json) :=
  j ← snd e; Some (json_text (fst e), j).

(** The fields of a struct, in order, each encoded by [enc]: a field
    tagged [omitempty] is left out when its value is empty. *)
Definition encode_fields (enc : GoValue -> option json) :
    list (string * bool * GoValue) -> option (list (string * json)) :=
  fix go fs :=
    match fs with
    | [] => Some []
    | (name, omitempty, x) :: rest =>
        if omitempty && isEmptyValue x then go rest
        else
          j ← enc x;
          ms ← go rest;
          Some ((name, j) :: ms)
    end.

Section Encoding.

(** [Time.MarshalJSON]: the RFC 3339 text of a time, or an error (a
    year outside 0..9999). *)
Variable Time_MarshalJSON : Time -> option string.

(** The order in which the runtime happens to iterate over a map. *)
Variable MapRange : gmap string (option json) -> list (string * option json).

(** [json.Marshal] on a value; [None] is an error.  The entries of a map
    are collected in iteration order and sorted by key; their values are
    encoded before the sort here and after it in Go, which gives the
    same document, and an error in the same cases.  A JSON string holds
    the text that is written for the Go string; the entries of a map are
    sorted by their Go keys and written under the text of the keys. *)
Fixpoint marshal (v : GoValue) : option json :=
  match v with
  | VNil => Some JNull
  | VBool b => Some (JBool b)
  | VInt z => Some (JNumber (NInt z))
  | VFloat f =>
      if PrimFloat.is_nan f || PrimFloat.is_infinity f then None
      else Some (JNumber (NFloat f))
  | VString s => Some (JString (json_text s))
  | VTime t => JString <$> Time_MarshalJSON t
  | VSlice l => JArray <$> mapM marshal l
  | VMap m =>
      JObject <$> mapM encoded_entry (merge_sort key_le (MapRange (marshal <$> m)))
  | VStruct fields => JObject <$> encode_fields marshal fields
  end.

End Encoding.

(** ** The structs as [encoding/json] sees them *)

(** A slice field: nil, or the elements. *)
Definition reflect_slice {A : Type} (r : A -> GoValue) (s : slice A) : GoValue :=
  match s with
  | None => VNil
  | Some l => VSlice (map r l)
  end.

(** A pointer field: nil, or the pointee. *)
Definition reflect_ptr {A : Type} (r : A -> GoValue) (o : option A) : GoValue :=
  match o with
  | None => VNil
  | Some x => r x
  end.

(** A map field: nil, or the map. *)
Definition reflect_map (o : option (gmap string GoValue)) : GoValue :=
  match o with
  | None => VNil
  | Some m => VMap m
  end.

(** Each struct below lists its fields in declaration order with the
    name and the [omitempty] flag of the field's [json] tag. *)
Definition reflect_Organization (o : Organization) : GoValue :=
  VStruct [
    ("name", false, VString (Organization_Name o));
    ("domain", true, VString (Organization_Domain o));
    ("contact", true, VString (Organization_Contact o)) ].

Definition reflect_Control (c : Control) : GoValue :=
  VStruct [
    ("id", false, VString (Control_ID c));
    ("title", true, VString (Control_Title c));
    ("status", false, VString (Control_Status c));
    ("reason", true, VString (Control_Reason c));
    ("remediation_date", true, VString (Control_RemediationDate c));
    ("evidence_refs", true, reflect_slice VString (Control_EvidenceRefs c)) ].

Definition reflect_Framework (f : Framework) : GoValue :=
  VStruct [
    ("name", false, VString (Framework_Name f));
    ("version", true, VString (Framework_Version f));
    ("status", false, VString (Framework_Status f));
    ("score", false, VFloat (Framework_Score f));
    ("last_audit", true, VString (Framework_LastAudit f));
    ("auditor", true, VString (Framework_Auditor f));
    ("report_ref", true, VString (Framework_ReportRef f));
    ("certificate_ref", true, VString (Framework_CertificateRef f));
    ("controls", true, reflect_slice reflect_Control (Framework_Controls f)) ].

Definition reflect_EvidenceRef (e : EvidenceRef) : GoValue :=
  VStruct [
    ("type", true, VString (EvidenceRef_Type e));
    ("description", true, VString (EvidenceRef_Description e));
    ("url", false, VString (EvidenceRef_URL e));
    ("expires", true, VString (EvidenceRef_Expires e));
    ("hash", true, VString (EvidenceRef_Hash e));
    ("size_bytes", true, VInt (EvidenceRef_SizeBytes e)) ].

Definition reflect_Posture (p : Posture) : GoValue :=
  VStruct [
    ("version", false, VString (Posture_Version p));
    ("timestamp", false, VTime (Posture_Timestamp p));
    ("compliance_posture", false, VString (Posture_CompliancePosture p));
    ("organization", true, reflect_ptr reflect_Organization (Posture_Organization p));
    ("frameworks", false, reflect_slice reflect_Framework (Posture_Frameworks p));
    ("evidence_refs", true, reflect_slice id (Posture_EvidenceRefs p));
    ("extensions", true, reflect_map (Posture_Extensions p)) ].

Section Serialization.

Variable Time_MarshalJSON : Time -> option string.
Variable MapRange : gmap string (option json) -> list (string * option json).

(** [p.ToJSON()]: the document [json.Marshal(p)] writes, or an error.
    The bytes are this document in compact form. *)
Definition ToJSON : method (option json) :=
  load (fun p => marshal Time_MarshalJSON MapRange (reflect_Posture p)).

(** [p.ToJSONIndent()]: the same document, written with two-space
    indentation. *)
Definition ToJSONIndent : method (option json) :=
  load (fun p => marshal Time_MarshalJSON MapRange (reflect_Posture p)).

End Serialization.

(** ** [net/http] as the handler uses it *)

(** A request: its method and the parsed query of its URL. *)
Record Request : Type := mkRequest {
  Request_Method : string;
  Request_Query : gmap string (list string)
}.

(** [url.Values.Get]: the first value of the key, or the empty string. *)
Definition Values_Get (q : gmap string (list string)) (key : string) : string :=
  match q !! key with
  | Some (v :: _) => v
  | _ => ""
  end.

(** [textproto.CanonicalMIMEHeaderKey] on a key made of token bytes: the
    first letter and every letter after a hyphen in upper case, the other
    letters in lower case. *)
Definition canonical_byte (upper : bool) (c : ascii) : ascii :=
  let n := nat_of_ascii c in
  if upper && Nat.leb 97 n && Nat.leb n 122 then ascii_of_nat (n - 32)
  else if negb upper && Nat.leb 65 n && Nat.leb n 90 then ascii_of_nat (n + 32)
  else c.

Fixpoint canonical_from (upper : bool) (s : string) : string :=
  match s with
  | EmptyString => EmptyString
  | String c rest =>
      let c' := canonical_byte upper c in
      String c' (canonical_from (Ascii.eqb c' "-") rest)
  end.

Definition CanonicalMIMEHeaderKey (s : string) : string := canonical_from true s.

(** What is written to the body: a line of text, or a JSON document in
    the indented form of [json.MarshalIndent]. *)
Inductive chunk : Type :=
| Text (s : string)
| Document (doc : json).

(** An [http.ResponseWriter]: the header map, the status line and headers
    once written, and the body so far. *)
Record ResponseWriter : Type := mkResponseWriter {
  Header : gmap string string;
  wroteHeader : option (nat * gmap string string);
  body : list chunk
}.

Abbreviation writer := (state ResponseWriter).

Definition new_ResponseWriter : ResponseWriter :=
  {| Header := ∅; wroteHeader := None; body := [] |}.

(** [w.Header().Set(key, value)] *)
Definition Header_Set (key value : string) : writer unit :=
  fun w => (tt, {| Header := <[CanonicalMIMEHeaderKey key := value]> (Header w);
                   wroteHeader := wroteHeader w;
                   body := body w |}).

(** [w.Header().Del(key)] *)
Definition Header_Del (key : string) : writer unit :=
  fun w => (tt, {| Header := delete (CanonicalMIMEHeaderKey key) (Header w);
                   wroteHeader := wroteHeader w;
                   body := body w |}).

(** [h.Get(key)] on a header map. *)
Definition Header_Get (h : gmap string string) (key : string) : string :=
  default "" (h !! CanonicalMIMEHeaderKey key).

(** [w.WriteHeader(code)]: the first call fixes the status and the
    headers; later calls change nothing. *)
Definition WriteHeader (code : nat) : writer unit :=
  fun w =>
    match wroteHeader w with
    | Some _ => (tt, w)
    | None => (tt, {| Header := Header w;
                      wroteHeader := Some (code, Header w);
                      body := body w |})
    end.

(** [w.Write(data)]: writes the header with status 200 first if it was
    not written yet. *)
Definition append_body (data : chunk) : writer unit :=
  fun w => (tt, {| Header := Header w;
                   wroteHeader := wroteHeader w;
                   body := body w ++ [data] |}).

Definition Write (data : chunk) : writer unit :=
  _ ← WriteHeader 200;
  append_body data.

Definition newline : string := String "010"%char EmptyString.

Definition dquote : string := String "034"%char EmptyString.

(** [http.Error(w, error, code)] *)
Definition http_Error (error : string) (code : nat) : writer unit :=
  _ ← Header_Del "Content-Length";
  _ ← Header_Set "Content-Type" "text/plain; charset=utf-8";
  _ ← Header_Set "X-Content-Type-Options" "nosniff";
  _ ← WriteHeader code;
  Write (Text (String.append error newline)).

Definition StatusOK : nat := 200.
Definition StatusMethodNotAllowed : nat := 405.
Definition StatusInternalServerError : nat := 500.
Definition StatusNotImplemented : nat := 501.

(** The status and a header of the response as it was sent. *)
Definition response_status (w : ResponseWriter) : option nat :=
  fst <$> wroteHeader w.

Definition response_header (w : ResponseWriter) (key : string) : string :=
  match wroteHeader w with
  | Some (_, h) => Header_Get h key
  | None => ""
  end.

(** ** The handler *)

(** What a [Provider] returned: the pointer and the error. *)
Definition provided : Type := option Posture * option string.

(** The text the handler sends when YAML is asked for:
    [{"error": "YAML format requires gopkg.in/yaml.v3"}] *)
Definition yaml_note : string :=
  String.concat "" [ "{"; dquote; "error"; dquote; ": "; dquote;
                     "YAML format requires gopkg.in/yaml.v3"; dquote; "}" ].

Section Handler.

Variable Time_MarshalJSON : Time -> option string.
Variable MapRange : gmap string (option json) -> list (string * option json).

(** [Handler(provider)] on a request [r], writing to [w]. *)
Definition Handler (provider : unit -> provided) (r : Request) : writer unit :=
  if negb (String.eqb (Request_Method r) "GET")
  then http_Error "Method not allowed" StatusMethodNotAllowed
  else
    let '(posture, err) := provider tt in
    match err with
    | Some _ => http_Error "Internal server error" StatusInternalServerError
    | None =>
        let format := Values_Get (Request_Query r) "format" in
        if String.eqb format "yaml"
        then
          _ ← Header_Set "Content-Type" "application/json";
          http_Error yaml_note StatusNotImplemented
        else
          match marshal Time_MarshalJSON MapRange (reflect_ptr reflect_Posture posture) with
          | None => http_Error "Failed to serialize posture" StatusInternalServerError
          | Some data =>
              _ ← Header_Set "Content-Type" "application/json";
              _ ← Header_Set "X-CPX-Version" Version;
              _ ← WriteHeader StatusOK;
              Write (Document data)
          end
    end.

End Handler.

(** ** Predicates and sample values used in the statements *)

(** A reading of the clock: 2025-10-16 12:00:00 UTC, in a zone two hours
    east, with a monotonic reading. *)
Definition sample_now : Time :=
  {| wall := 1760616000000000000%Z;
     monotonic := Some 52000%Z;
     location := Zone "CEST" 7200 |}.

Definition soc2 : Framework := NewFramework "SOC2" StatusCompliant 1.0%float.
Definition iso27001 : Framework := NewFramework "ISO27001" StatusPartial 0.85%float.
Definition hipaa : Framework := NewFramework "HIPAA" StatusNonCompliant 0.2%float.

(** A framework with an empty name and a score above one. *)
Definition out_of_range : Framework := NewFramework "" StatusPartial 1.0000001%float.

(** The receiver after a chain of builder calls on a new posture. *)
Definition built (fs : list Framework) : Posture :=
  fold_left (fun p f => receiver_after (AddFramework f) p) fs (NewPosture sample_now).

(** The test of the loop of [CalculateOverallPosture]. *)
Definition is_compliant (f : Framework) : bool :=
  String.eqb (Framework_Status f) StatusCompliant.

(** A framework with a score below zero. *)
Definition below_zero : Framework := NewFramework "SOC2" StatusPartial (-0.0001)%float.

(** What the field tags promise about the object written for a control:
    an optional field that is empty has no member. *)
Definition Control_presence (c : Control) (j : json) : Prop :=
  exists ms, j = JObject ms /\
    (Control_Title c = "" -> "title" ∉ keys ms) /\
    (Control_Reason c = "" -> "reason" ∉ keys ms) /\
    (Control_RemediationDate c = "" -> "remediation_date" ∉ keys ms) /\
    (len (Control_EvidenceRefs c) = 0 -> "evidence_refs" ∉ keys ms).

(** The same for a framework; its controls, when there are some, are an
    array with one object per control. *)
Definition Framework_presence (f : Framework) (j : json) : Prop :=
  exists ms, j = JObject ms /\
    (Framework_Version f = "" -> "version" ∉ keys ms) /\
    (Framework_LastAudit f = "" -> "last_audit" ∉ keys ms) /\
    (Framework_Auditor f = "" -> "auditor" ∉ keys ms) /\
    (Framework_ReportRef f = "" -> "report_ref" ∉ keys ms) /\
    (Framework_CertificateRef f = "" -> "certificate_ref" ∉ keys ms) /\
    (len (Framework_Controls f) = 0 -> "controls" ∉ keys ms) /\
    (len (Framework_Controls f) <> 0 ->
     exists items, member "controls" ms = Some (JArray items) /\
                   Forall2 Control_presence (elems (Framework_Controls f)) items).

(** The same for an organization. *)
Definition Organization_presence (o : Organization) (j : json) : Prop :=
  exists ms, j = JObject ms /\
    (Organization_Domain o = "" -> "domain" ∉ keys ms) /\
    (Organization_Contact o = "" -> "contact" ∉ keys ms).

(** A posture has no extensions: the map is nil or has no entry. *)
Definition no_extensions (p : Posture) : Prop :=
  match Posture_Extensions p with
  | None => True
  | Some m => size m = 0
  end.

(** The document written for a posture: no member for an organization
    that is not set, for evidence references or extensions that are
    empty; always a member for the frameworks, which is [null] for the
    nil slice and an array with one object per framework otherwise. *)
Definition Posture_presence (p : Posture) (doc : json) : Prop :=
  exists ms, doc = JObject ms /\
    match Posture_Organization p with
    | None => "organization" ∉ keys ms
    | Some o => exists j, member "organization" ms = Some j /\ Organization_presence o j
    end /\
    (len (Posture_EvidenceRefs p) = 0 -> "evidence_refs" ∉ keys ms) /\
    (no_extensions p -> "extensions" ∉ keys ms) /\
    match Posture_Frameworks p with
    | None => member "frameworks" ms = Some JNull
    | Some fs => exists items, member "frameworks" ms = Some (JArray items) /\
                               Forall2 Framework_presence fs items
    end.

(** The JSON name of a struct field. *)
Definition field_name (fld : string * bool * GoValue) : string := fst (fst fld).

(** A formatter for the samples: every sample time is this one. *)
Definition sample_format (t : Time) : option string := Some "2025-10-16T12:00:00Z".

Definition acme : Organization :=
  {| Organization_Name := "Acme Corp";
     Organization_Domain := "acme.com";
     Organization_Contact := "" |}.

Definition cc11 : Control :=
  {| Control_ID := "CC1.1";
     Control_Title := "";
     Control_Status := ControlPartial;
     Control_Reason := "";
     Control_RemediationDate := "";
     Control_EvidenceRefs := Some ["https://evidence.example/cc1.1.pdf"] |}.

(** The receiver after
    [SetPosture], [SetOrganization], two [AddFramework] and two
    [AddExtension] calls on a new posture. *)
Definition sample_posture : Posture :=
  receiver_after
    (_ ← SetPosture PosturePartiallyCompliant;
     _ ← SetOrganization acme;
     _ ← AddFramework (AddControl cc11 (NewFramework "SOC2" StatusPartial 0.7%float));
     _ ← AddFramework (NewFramework "ISO27001" StatusCompliant 1.0%float);
     _ ← AddExtension "x-acme-tier" (VString "gold");
     AddExtension "acme" (VMap {[ "customer_count" := VInt 5000 ]}))
    (NewPosture sample_now).

Definition sample_document : json :=
  JObject
    [("version", JString "v1");
     ("timestamp", JString "2025-10-16T12:00:00Z");
     ("compliance_posture", JString "partially_compliant");
     ("organization",
      JObject [("name", JString "Acme Corp"); ("domain", JString "acme.com")]);
     ("frameworks",
      JArray
        [JObject
           [("name", JString "SOC2"); ("status", JString "partial");
            ("score", JNumber (NFloat 0.7%float));
            ("controls",
             JArray
               [JObject
                  [("id", JString "CC1.1"); ("status", JString "partial");
                   ("evidence_refs",
                    JArray [JString "https://evidence.example/cc1.1.pdf"])]])];
         JObject
           [("name", JString "ISO27001"); ("status", JString "compliant");
            ("score", JNumber (NFloat 1.0%float))]]);
     ("extensions",
      JObject
        [("acme", JObject [("customer_count", JNumber (NInt 5000))]);
         ("x-acme-tier", JString "gold")])].

(** A posture made by a composite literal that leaves the frameworks
    out: the slice is nil. *)
Definition literal_posture : Posture :=
  {| Posture_Version := Version;
     Posture_Timestamp := Time_UTC sample_now;
     Posture_CompliancePosture := PostureUnknown;
     Posture_Organization := None;
     Posture_Frameworks := None;
     Posture_EvidenceRefs := None;
     Posture_Extensions := None |}.

(** A score that JSON can carry: neither a NaN nor an infinity. *)
Definition finite_score (f : Framework) : Prop :=
  PrimFloat.is_nan (Framework_Score f) || PrimFloat.is_infinity (Framework_Score f) = false.

(** The number of constructors of a value. *)
Fixpoint GoValue_size (v : GoValue) : nat :=
  match v with
  | VSlice l => S (list_sum (map GoValue_size l))
  | VMap m => S (map_fold (fun _ x acc => GoValue_size x + acc) 0 m)
  | VStruct fs => S (list_sum (map (fun fld => GoValue_size (snd fld)) fs))
  | _ => 1
  end.

(** An iteration order lists the entries of the map, each once, in some
    order. *)
Definition iteration_order
    (iter : gmap string (option json) -> list (string * option json)) : Prop :=
  forall m, iter m ≡ₚ map_to_list m.

(** The response to a request, written on a fresh response writer. *)
Definition serve (fmt : Time -> option string)
    (iter : gmap string (option json) -> list (string * option json))
    (provider : unit -> provided) (r : Request) : ResponseWriter :=
  snd (Handler fmt iter provider r new_ResponseWriter).

(** The envelope [{"error": "Internal server error"}]. *)
Definition error_envelope : string :=
  String.concat "" [ "{"; dquote; "error"; dquote; ": "; dquote;
                     "Internal server error"; dquote; "}" ].

Definition get_cpx : Request :=
  {| Request_Method := "GET"; Request_Query := ∅ |}.

Definition get_cpx_yaml : Request :=
  {| Request_Method := "GET"; Request_Query := {[ "format" := ["yaml"] ]} |}.

Definition post_cpx : Request :=
  {| Request_Method := "POST"; Request_Query := ∅ |}.

Definition failing_provider (_ : unit) : provided := (None, Some "database unreachable").

Definition sample_provider (_ : unit) : provided := (Some sample_posture, None).

(** ** Chains of builder calls *)

(** A call of one of the builder methods of [*Posture]. *)
Inductive builder_call : Type :=
| CallAddFramework (f : Framework)
| CallSetOrganization (org : Organization)
| CallSetPosture (posture : CompliancePosture)
| CallAddExtension (key : string) (value : GoValue).

Definition run_call (c : builder_call) : method unit :=
  match c with
  | CallAddFramework f => AddFramework f
  | CallSetOrganization org => SetOrganization org
  | CallSetPosture posture => SetPosture posture
  | CallAddExtension key value => AddExtension key value
  end.

(** The receiver after the calls [cs], made one after the other. *)
Definition run_calls (cs : list builder_call) (p : Posture) : Posture :=
  fold_left (fun q c => receiver_after (run_call c) q) cs p.

(** The frameworks that the calls add, in call order. *)
Definition added_frameworks (cs : list builder_call) : list Framework :=
  omap (fun c => match c with CallAddFramework f => Some f | _ => None end) cs.

(** The argument of the last [SetPosture] among the calls, if any. *)
Definition last_posture (cs : list builder_call) : option CompliancePosture :=
  last (omap (fun c => match c with CallSetPosture x => Some x | _ => None end) cs).

(** The argument of the last [SetOrganization] among the calls, if any. *)
Definition last_organization (cs : list builder_call) : option Organization :=
  last (omap (fun c => match c with CallSetOrganization o => Some o | _ => None end) cs).

(** The value of the last [AddExtension] with key [k] among the calls, if
    any. *)
Definition last_extension (k : string) (cs : list builder_call) : option GoValue :=
  last (omap (fun c => match c with
                       | CallAddExtension k' v => if String.eqb k k' then Some v else None
                       | _ => None
                       end) cs).

(** The entries of a map that may be nil. *)
Definition entries (e : option (gmap string GoValue)) : gmap string GoValue :=
  default ∅ e.

(** ** Aggregation, one framework at a time *)

(** The overall posture once one more framework is counted, from the
    overall posture before and whether the framework is compliant. *)
Definition posture_with (before : CompliancePosture) (compliant : bool) : CompliancePosture :=
  if String.eqb before PostureUnknown then
    if compliant then PostureCompliant else PostureNonCompliant
  else if String.eqb before PostureCompliant then
    if compliant then PostureCompliant else PosturePartiallyCompliant
  else if String.eqb before PostureNonCompliant then
    if compliant then PosturePartiallyCompliant else PostureNonCompliant
  else PosturePartiallyCompliant.

(** ** Names used in the statements about documents *)

(** The keys of a posture's document, in the order of the struct's
    fields. *)
Definition Posture_keys : list string :=
  [ "version"; "timestamp"; "compliance_posture"; "organization";
    "frameworks"; "evidence_refs"; "extensions" ].

(** Bytewise order on keys. *)
Definition string_le (a b : string) : Prop := String.leb a b = true.

(** A field is written: it is not tagged [omitempty], or not empty. *)
Definition written (fld : string * bool * GoValue) : bool :=
  negb (snd (fst fld) && isEmptyValue (snd fld)).

(** The framework after [AddControl] was called with each of [cs], one
    after the other. *)
Definition add_controls (cs : list Control) (f : Framework) : Framework :=
  fold_left (fun g c => AddControl c g) cs f.

(** The members of the sample's extensions object and of the sample
    document. *)
Definition sample_extension_members : list (string * json) :=
  [ ("acme", JObject [("customer_count", JNumber (NInt 5000))]);
    ("x-acme-tier", JString "gold") ].

Definition sample_members : list (string * json) :=
  [("version", JString "v1");
   ("timestamp", JString "2025-10-16T12:00:00Z");
   ("compliance_posture", JString "partially_compliant");
   ("organization",
    JObject [("name", JString "Acme Corp"); ("domain", JString "acme.com")]);
   ("frameworks",
    JArray
      [JObject
         [("name", JString "SOC2"); ("status", JString "partial");
          ("score", JNumber (NFloat 0.7%float));
          ("controls",
           JArray
             [JObject
                [("id", JString "CC1.1"); ("status", JString "partial");
                 ("evidence_refs",
                  JArray [JString "https://evidence.example/cc1.1.pdf"])]])];
       JObject
         [("name", JString "ISO27001"); ("status", JString "compliant");
          ("score", JNumber (NFloat 1.0%float))]]);
   ("extensions", JObject sample_extension_members)].

(** ** Responses and routing *)

(** The response [http.Error] leaves on a fresh response writer. *)
Definition error_response (error : string) (code : nat) : ResponseWriter :=
  {| Header := {[ "Content-Type" := "text/plain; charset=utf-8";
                  "X-Content-Type-Options" := "nosniff" ]};
     wroteHeader := Some (code, {[ "Content-Type" := "text/plain; charset=utf-8";
                                   "X-Content-Type-Options" := "nosniff" ]});
     body := [Text (String.append error newline)] |}.

(** The response that carries a document. *)
Definition ok_response (doc : json) : ResponseWriter :=
  {| Header := {[ "Content-Type" := "application/json"; "X-Cpx-Version" := Version ]};
     wroteHeader := Some (StatusOK, {[ "Content-Type" := "application/json";
                                       "X-Cpx-Version" := Version ]});
     body := [Document doc] |}.

Section Routing.

Variable Time_MarshalJSON : Time -> option string.
Variable MapRange : gmap string (option json) -> list (string * option json).

(** [Middleware(provider, next)] on a request [r] whose URL path is
    [path], writing to [w].  [next] is the wrapped handler. *)
Definition Middleware (provider : unit -> provided)
    (next : string -> Request -> writer unit)
    (path : string) (r : Request) : writer unit :=
  if String.eqb path "/cpx"
  then Handler Time_MarshalJSON MapRange provider r
  else next path r.

End Routing.

(** A wrapped handler that answers every request with status 204. *)
Definition no_content (_ : string) (_ : Request) : writer unit := WriteHeader 204.

(** A provider that returns no posture and no error. *)
Definition nil_provider (_ : unit) : provided := (None, None).

(** A posture with a framework whose score is a NaN, and its provider. *)
Definition nan_posture : Posture :=
  receiver_after (AddFramework (NewFramework "SOC2" StatusPartial PrimFloat.nan))
    (NewPosture sample_now).

Definition nan_provider (_ : unit) : provided := (Some nan_posture, None).

(** The builder calls that make [sample_posture]. *)
Definition sample_calls : list builder_call :=
  [ CallSetPosture PosturePartiallyCompliant;
    CallSetOrganization acme;
    CallAddFramework (AddControl cc11 (NewFramework "SOC2" StatusPartial 0.7%float));
    CallAddFramework (NewFramework "ISO27001" StatusCompliant 1.0%float);
    CallAddExtension "x-acme-tier" (VString "gold");
    CallAddExtension "acme" (VMap {[ "customer_count" := VInt 5000 ]}) ].

(** Two frameworks with the statuses of [soc2] and [iso27001] and other
    names, scores and auditors. *)
Definition gdpr : Framework :=
  {| Framework_Name := "GDPR";
     Framework_Version := "2016/679";
     Framework_Status := StatusCompliant;
     Framework_Score := 0.1%float;
     Framework_LastAudit := "";
     Framework_Auditor := "Audit LLP";
     Framework_ReportRef := "";
     Framework_CertificateRef := "";
     Framework_Controls := None |}.

Definition pci : Framework := NewFramework "PCI-DSS" StatusPartial 1.0%float.

(** ** Strings that are not valid UTF-8 *)

(** The bytes FF and FE, which no UTF-8 encoding contains. *)
Definition byte_FF : string := String "255"%char EmptyString.
Definition byte_FE : string := String "254"%char EmptyString.

(** A new posture whose compliance posture was set to a string with an
    invalid byte, and the members of its document. *)
Definition invalid_posture : Posture :=
  receiver_after (SetPosture (String.append "ok" byte_FF)) (NewPosture sample_now).

Definition invalid_members : list (string * json) :=
  [ ("version", JString "v1");
    ("timestamp", JString "2025-10-16T12:00:00Z");
    ("compliance_posture", JString (String.append "ok" replacement));
    ("frameworks", JArray []) ].

(** A map entry as it is written: under the text of its key. *)
Definition written_entry (e : string * json) : string * json :=
  (json_text (fst e), snd e).

(** * Properties *)

(** ** Aggregation *)

(** The loop's invariant: after the frameworks [fs], the first flag has
    lost its value if some status was not [compliant], the second has
    gained it if some status was. *)
Lemma posture_loop_flags (fs : list Framework) (allCompliant anyCompliant : bool) :
  fold_left posture_loop_body fs (allCompliant, anyCompliant)
  = (allCompliant && forallb is_compliant fs,
     anyCompliant || existsb is_compliant fs).
Proof.
  revert allCompliant anyCompliant.
  induction fs as [|f fs IH]; intros a b; simpl.
  - by rewrite andb_true_r, orb_false_r.
  - unfold is_compliant at 1 3. destruct (String.eqb _ _); rewrite IH; simpl.
    + by rewrite orb_true_r.
    + by rewrite andb_false_r.
Qed.

Lemma CalculateOverallPosture_unfold (p : Posture) :
  CalculateOverallPosture p
  = (match elems (Posture_Frameworks p) with
     | [] => PostureUnknown
     | _ :: _ =>
         if forallb is_compliant (elems (Posture_Frameworks p)) then PostureCompliant
         else if existsb is_compliant (elems (Posture_Frameworks p))
              then PosturePartiallyCompliant
              else PostureNonCompliant
     end, p).
Proof.
  unfold CalculateOverallPosture, mbind, state_bind, load, len.
  destruct (elems (Posture_Frameworks p)) as [|f fs] eqn:E; [done|].
  cbn [length Nat.eqb].
  rewrite posture_loop_flags. cbn [andb orb].
  by repeat case_match.
Qed.

Example posture_of_soc2_iso :
  result_of CalculateOverallPosture (built [soc2; iso27001]) = PosturePartiallyCompliant.
Proof. reflexivity. Qed.

Example posture_of_nothing :
  result_of CalculateOverallPosture (built []) = PostureUnknown.
Proof. reflexivity. Qed.

Example posture_of_partial_only :
  result_of CalculateOverallPosture (built [iso27001]) = PostureNonCompliant.
Proof. reflexivity. Qed.

(** C1.  For every posture, [CalculateOverallPosture] returns what the
    specification's algorithm gives on the posture's frameworks: unknown
    for none, compliant if every status is compliant, partially compliant
    if some status is, non-compliant otherwise. *)
Theorem CalculateOverallPosture_refines_spec (p : Posture) :
  result_of CalculateOverallPosture p = spec_aggregate (elems (Posture_Frameworks p)).
Proof.
  unfold result_of. rewrite CalculateOverallPosture_unfold. simpl.
  unfold spec_aggregate. by destruct (elems (Posture_Frameworks p)).
Qed.

Lemma no_compliant_flags (fs : list Framework) :
  Forall (fun f => Framework_Status f <> StatusCompliant) fs ->
  existsb is_compliant fs = false.
Proof.
  induction 1 as [|f fs Hf _ IH]; simpl; [done|].
  rewrite IH, orb_false_r. unfold is_compliant.
  by apply String.eqb_neq.
Qed.

(** C2.  For every posture with at least one framework and no framework
    of status compliant, whatever mix of partial and non-compliant they
    are, [CalculateOverallPosture] returns non-compliant. *)
Theorem no_compliant_is_non_compliant (p : Posture) :
  len (Posture_Frameworks p) <> 0 ->
  Forall (fun f => Framework_Status f <> StatusCompliant) (elems (Posture_Frameworks p)) ->
  result_of CalculateOverallPosture p = PostureNonCompliant.
Proof.
  intros Hlen Hnone. unfold result_of, len in *.
  rewrite CalculateOverallPosture_unfold. simpl.
  pose proof (no_compliant_flags _ Hnone) as Hany.
  destruct (elems (Posture_Frameworks p)) as [|f fs]; [done|].
  rewrite Hany.
  simpl in Hany. apply orb_false_elim in Hany as [Hf _].
  simpl. by rewrite Hf.
Qed.

Lemma no_compliant_is_non_compliant_witness :
  result_of CalculateOverallPosture (built [iso27001; hipaa; iso27001]) = PostureNonCompliant.
Proof.
  apply (no_compliant_is_non_compliant (built [iso27001; hipaa; iso27001])).
  - vm_compute. lia.
  - vm_compute. repeat constructor; discriminate.
Defined.

(** C9.  [CalculateOverallPosture] only reads: the receiver is the same
    posture after the call, field for field, and the result is not
    stored in it. *)
Theorem CalculateOverallPosture_reads_only (p : Posture) :
  receiver_after CalculateOverallPosture p = p.
Proof.
  unfold receiver_after. by rewrite CalculateOverallPosture_unfold.
Qed.

Lemma posture_loop_body_swap (flags : bool * bool) (f g : Framework) :
  posture_loop_body (posture_loop_body flags f) g
  = posture_loop_body (posture_loop_body flags g) f.
Proof.
  destruct flags as [a b]. unfold posture_loop_body.
  by destruct (String.eqb (Framework_Status f) _), (String.eqb (Framework_Status g) _).
Qed.

Lemma posture_loop_permutation (fs gs : list Framework) :
  fs ≡ₚ gs ->
  forall flags, fold_left posture_loop_body fs flags = fold_left posture_loop_body gs flags.
Proof.
  induction 1 as [|f fs gs _ IH|f g fs|fs gs hs _ IH1 _ IH2]; intros flags; simpl.
  - done.
  - apply IH.
  - by rewrite posture_loop_body_swap.
  - by rewrite IH1.
Qed.

(** The two tests of the loop read the status of a framework and nothing
    else of it. *)
Lemma compliant_flags_statuses (fs : list Framework) :
  forallb is_compliant fs
  = forallb (fun s => String.eqb s StatusCompliant) (map Framework_Status fs) /\
  existsb is_compliant fs
  = existsb (fun s => String.eqb s StatusCompliant) (map Framework_Status fs).
Proof.
  induction fs as [|f fs [IHall IHany]]; [done|].
  simpl. unfold is_compliant at 1 3. by rewrite IHall, IHany.
Qed.

Lemma compliant_flags_permutation (ss ts : list FrameworkStatus) :
  ss ≡ₚ ts ->
  forallb (fun s => String.eqb s StatusCompliant) ss
  = forallb (fun s => String.eqb s StatusCompliant) ts /\
  existsb (fun s => String.eqb s StatusCompliant) ss
  = existsb (fun s => String.eqb s StatusCompliant) ts.
Proof.
  induction 1 as [|s ss ts _ [IHall IHany]|s t ss
                  |ss ts us _ [IHall1 IHany1] _ [IHall2 IHany2]]; simpl.
  - done.
  - by rewrite IHall, IHany.
  - by destruct (String.eqb s _), (String.eqb t _).
  - by rewrite IHall1, IHany1.
Qed.

(** C10.  The result is independent of the order of the frameworks and
    depends only on the multiset of their statuses.  Two postures whose
    framework lists are permutations of each other get the same overall
    posture; and so do two postures whose frameworks' statuses, taken as
    lists with repeats, are permutations of each other, whatever else
    the frameworks and the postures hold. *)
Theorem CalculateOverallPosture_order_independent (p q : Posture) :
  (elems (Posture_Frameworks p) ≡ₚ elems (Posture_Frameworks q) ->
   result_of CalculateOverallPosture p = result_of CalculateOverallPosture q) /\
  (map Framework_Status (elems (Posture_Frameworks p))
   ≡ₚ map Framework_Status (elems (Posture_Frameworks q)) ->
   result_of CalculateOverallPosture p = result_of CalculateOverallPosture q).
Proof.
  assert (map Framework_Status (elems (Posture_Frameworks p))
          ≡ₚ map Framework_Status (elems (Posture_Frameworks q)) ->
          result_of CalculateOverallPosture p = result_of CalculateOverallPosture q)
    as Hstatuses.
  { intros Hperm. unfold result_of. rewrite !CalculateOverallPosture_unfold. cbn [fst].
    destruct (compliant_flags_statuses (elems (Posture_Frameworks p))) as [-> ->].
    destruct (compliant_flags_statuses (elems (Posture_Frameworks q))) as [-> ->].
    destruct (compliant_flags_permutation _ _ Hperm) as [-> ->].
    apply Permutation_length in Hperm. rewrite !length_map in Hperm.
    by destruct (elems (Posture_Frameworks p)), (elems (Posture_Frameworks q)). }
  split; [|done].
  intros Hperm. by apply Hstatuses, Permutation_map.
Qed.

Lemma CalculateOverallPosture_order_independent_witness :
  result_of CalculateOverallPosture (built [soc2; iso27001; hipaa])
  = result_of CalculateOverallPosture (built [hipaa; soc2; iso27001]) /\
  result_of CalculateOverallPosture (built [soc2; iso27001; hipaa])
  = result_of CalculateOverallPosture
      (receiver_after (SetPosture PostureCompliant) (built [hipaa; gdpr; pci])).
Proof.
  split.
  - apply (proj1 (CalculateOverallPosture_order_independent
                    (built [soc2; iso27001; hipaa]) (built [hipaa; soc2; iso27001]))).
    change (elems (Posture_Frameworks (built [soc2; iso27001; hipaa])))
      with [soc2; iso27001; hipaa].
    change (elems (Posture_Frameworks (built [hipaa; soc2; iso27001])))
      with [hipaa; soc2; iso27001].
    rewrite (Permutation_swap soc2 hipaa [iso27001]).
    apply Permutation_skip, Permutation_swap.
  - apply (proj2 (CalculateOverallPosture_order_independent
                    (built [soc2; iso27001; hipaa])
                    (receiver_after (SetPosture PostureCompliant)
                       (built [hipaa; gdpr; pci])))).
    change (map Framework_Status (elems (Posture_Frameworks (built [soc2; iso27001; hipaa]))))
      with [StatusCompliant; StatusPartial; StatusNonCompliant].
    change (map Framework_Status
              (elems (Posture_Frameworks
                        (receiver_after (SetPosture PostureCompliant)
                           (built [hipaa; gdpr; pci])))))
      with [StatusNonCompliant; StatusCompliant; StatusPartial].
    rewrite (Permutation_swap StatusCompliant StatusNonCompliant [StatusPartial]).
    apply Permutation_skip, Permutation_swap.
Defined.

(** ** Construction and mutation *)

Example boundary_scores_in_range :
  PrimFloat.leb 0 (Framework_Score (NewFramework "SOC2" StatusCompliant 0.0)) = true /\
  PrimFloat.leb (Framework_Score (NewFramework "SOC2" StatusCompliant 1.0)) 1 = true.
Proof. split; reflexivity. Qed.

(** Against C3 as stated: a framework with an empty name and a score
    above one, and a framework with a score below zero, are both
    appended to the frameworks of a new posture; the list does not stay
    as it was. *)
Lemma AddFramework_accepts_invalid :
  Framework_Name out_of_range = "" /\
  PrimFloat.leb (Framework_Score out_of_range) 1 = false /\
  PrimFloat.leb 0 (Framework_Score below_zero) = false /\
  Posture_Frameworks (receiver_after (AddFramework out_of_range) (NewPosture sample_now))
  = Some [out_of_range] /\
  Posture_Frameworks (receiver_after (AddFramework below_zero) (NewPosture sample_now))
  = Some [below_zero] /\
  Posture_Frameworks (receiver_after (AddFramework out_of_range) (NewPosture sample_now))
  <> Posture_Frameworks (NewPosture sample_now).
Proof. repeat split; try reflexivity. discriminate. Qed.

(** C3, amended.  [AddFramework] checks nothing and cannot fail: for
    every framework, whatever its name and score, the call appends the
    framework at the end of the receiver's frameworks and leaves every
    other field as it was; and [NewFramework] makes a framework of any
    name and any score. *)
Theorem AddFramework_always_appends (f : Framework) (p : Posture) :
  AddFramework f p
  = (tt, {| Posture_Version := Posture_Version p;
            Posture_Timestamp := Posture_Timestamp p;
            Posture_CompliancePosture := Posture_CompliancePosture p;
            Posture_Organization := Posture_Organization p;
            Posture_Frameworks := Some (elems (Posture_Frameworks p) ++ [f]);
            Posture_EvidenceRefs := Posture_EvidenceRefs p;
            Posture_Extensions := Posture_Extensions p |}) /\
  (forall name status score,
     Framework_Name (NewFramework name status score) = name /\
     Framework_Score (NewFramework name status score) = score /\
     elems (Posture_Frameworks
              (receiver_after (AddFramework (NewFramework name status score)) p))
     = elems (Posture_Frameworks p) ++ [NewFramework name status score]).
Proof. split; [reflexivity|]. intros name status score. repeat split. Qed.

Example new_posture_document :
  result_of (ToJSON sample_format map_to_list) (NewPosture sample_now)
  = Some (JObject [("version", JString "v1");
                   ("timestamp", JString "2025-10-16T12:00:00Z");
                   ("compliance_posture", JString "");
                   ("frameworks", JArray [])]).
Proof. vm_compute. reflexivity. Qed.

(** C4.  [NewPosture], called when the clock reads [now], returns a
    posture whose version is v1, whose timestamp is [now] in UTC and
    whose frameworks are an empty, non-nil slice; every other field has
    its zero value, so the compliance posture is the empty string, which
    is not [PostureUnknown]. *)
Theorem NewPosture_fields (now : Time) :
  Posture_Version (NewPosture now) = "v1" /\
  Posture_Timestamp (NewPosture now) = Time_UTC now /\
  wall (Posture_Timestamp (NewPosture now)) = wall now /\
  location (Posture_Timestamp (NewPosture now)) = UTC /\
  Posture_Frameworks (NewPosture now) = Some [] /\
  Posture_Organization (NewPosture now) = None /\
  Posture_CompliancePosture (NewPosture now) = "" /\
  Posture_CompliancePosture (NewPosture now) <> PostureUnknown.
Proof. repeat split. discriminate. Qed.

(** ** Serialization: which fields are written *)

Lemma encode_fields_omitted (enc : GoValue -> option json) (k : string)
    (fs : list (string * bool * GoValue)) (ms : list (string * json)) :
  encode_fields enc fs = Some ms ->
  (forall o v, (k, o, v) ∈ fs -> o = true /\ isEmptyValue v = true) ->
  k ∉ keys ms.
Proof.
  revert ms. induction fs as [|[[n o] v] fs IH]; intros ms Henc Hk; simpl in Henc.
  - injection Henc as <-. apply not_elem_of_nil.
  - assert (forall o' v', (k, o', v') ∈ fs -> o' = true /\ isEmptyValue v' = true) as Hk'.
    { intros o' v' Hin. apply Hk. by right. }
    destruct (o && isEmptyValue v) eqn:Hskip.
    + by apply IH.
    + destruct (enc v) as [j|]; [|done]. simpl in Henc.
      destruct (encode_fields enc fs) as [ms'|] eqn:Hrest; [|done].
      injection Henc as <-. simpl.
      apply not_elem_of_cons. split; [|by apply IH].
      intros ->. destruct (Hk o v) as [-> Hv]; [by left|].
      by rewrite Hv in Hskip.
Qed.

Lemma encode_fields_emitted (enc : GoValue -> option json) (k : string) (o : bool)
    (v : GoValue) (fs : list (string * bool * GoValue)) (ms : list (string * json)) :
  encode_fields enc fs = Some ms ->
  NoDup (map field_name fs) ->
  (k, o, v) ∈ fs ->
  o && isEmptyValue v = false ->
  exists j, enc v = Some j /\ member k ms = Some j.
Proof.
  revert ms. induction fs as [|[[n o'] v'] fs IH]; intros ms Henc Hnd Hin Hkeep.
  - by apply elem_of_nil in Hin.
  - simpl in Henc, Hnd. apply NoDup_cons in Hnd as [Hn Hnd].
    apply elem_of_cons in Hin as [Heq|Hin].
    + injection Heq as <- <- <-. rewrite Hkeep in Henc.
      destruct (enc v) as [j|]; [|done]. simpl in Henc.
      destruct (encode_fields enc fs) as [ms'|]; [|done].
      injection Henc as <-. exists j. split; [done|].
      simpl. by rewrite String.eqb_refl.
    + assert (k <> n) as Hkn.
      { intros ->. apply Hn. apply list_elem_of_fmap. by exists (n, o, v). }
      destruct (o' && isEmptyValue v').
      * by apply IH.
      * destruct (enc v') as [j'|]; [|done]. simpl in Henc.
        destruct (encode_fields enc fs) as [ms'|] eqn:Hrest; [|done].
        injection Henc as <-.
        destruct (IH ms' eq_refl Hnd Hin Hkeep) as (j & Hj & Hm).
        exists j. split; [done|]. simpl.
        by apply String.eqb_neq in Hkn as ->.
Qed.

Lemma isEmptyValue_string (s : string) : s = "" -> isEmptyValue (VString s) = true.
Proof. by intros ->. Qed.

Lemma isEmptyValue_slice {A : Type} (r : A -> GoValue) (s : slice A) :
  len s = 0 -> isEmptyValue (reflect_slice r s) = true.
Proof.
  destruct s as [l|]; [|done]. unfold len. simpl.
  intros Hl. by rewrite length_map, Hl.
Qed.

Lemma isEmptyValue_slice_false {A : Type} (r : A -> GoValue) (s : slice A) :
  len s <> 0 -> exists l, s = Some l /\ reflect_slice r s = VSlice (map r l) /\
                          isEmptyValue (reflect_slice r s) = false.
Proof.
  destruct s as [l|]; [|done]. unfold len. simpl. intros Hl.
  exists l. repeat split. rewrite length_map. by apply Nat.eqb_neq.
Qed.

Lemma marshal_struct (fmt : Time -> option string)
    (iter : gmap string (option json) -> list (string * option json))
    (fs : list (string * bool * GoValue)) (j : json) :
  marshal fmt iter (VStruct fs) = Some j ->
  exists ms, j = JObject ms /\ encode_fields (marshal fmt iter) fs = Some ms.
Proof.
  cbn [marshal]. destruct (encode_fields _ fs) as [ms|]; [|done].
  intros [= <-]. by exists ms.
Qed.

(** Which field of a literal field list a membership is about. *)
Ltac which_field Hin :=
  rewrite ?elem_of_cons, elem_of_nil in Hin; destruct_or!; simplify_eq.

(** An optional field that is empty has no member in the encoding. *)
Ltac field_omitted Henc :=
  let o := fresh "o" in
  let v := fresh "v" in
  let Hin := fresh "Hin" in
  apply (encode_fields_omitted _ _ _ _ Henc); intros o v Hin;
  which_field Hin; split; [reflexivity|];
  first [ by apply isEmptyValue_string
        | by apply isEmptyValue_slice
        | done ].

Section Presence.

Variable fmt : Time -> option string.
Variable iter : gmap string (option json) -> list (string * option json).

Lemma Control_marshal (c : Control) (j : json) :
  marshal fmt iter (reflect_Control c) = Some j -> Control_presence c j.
Proof.
  intros Hj. apply marshal_struct in Hj as (ms & -> & Henc).
  exists ms. split; [done|].
  repeat split; intros Hempty; field_omitted Henc.
Qed.

Lemma Controls_marshal (cs : list Control) (items : list json) :
  mapM (marshal fmt iter) (map reflect_Control cs) = Some items ->
  Forall2 Control_presence cs items.
Proof.
  rewrite mapM_Some, Forall2_fmap_l. intros Hall.
  eapply Forall2_impl; [exact Hall|].
  intros c j. apply Control_marshal.
Qed.

Lemma Organization_marshal (o : Organization) (j : json) :
  marshal fmt iter (reflect_Organization o) = Some j -> Organization_presence o j.
Proof.
  intros Hj. apply marshal_struct in Hj as (ms & -> & Henc).
  exists ms. split; [done|].
  repeat split; intros Hempty; field_omitted Henc.
Qed.

Lemma Framework_marshal (f : Framework) (j : json) :
  marshal fmt iter (reflect_Framework f) = Some j -> Framework_presence f j.
Proof.
  intros Hj. apply marshal_struct in Hj as (ms & -> & Henc).
  exists ms. split; [done|].
  repeat split; try (intros Hempty; field_omitted Henc).
  intros Hsome.
  destruct (isEmptyValue_slice_false reflect_Control _ Hsome) as (cs & Hcs & Hv & Hne).
  destruct (encode_fields_emitted _ "controls" true
              (reflect_slice reflect_Control (Framework_Controls f)) _ _ Henc)
    as (j & Hj & Hm).
  - by apply (bool_decide_unpack _).
  - set_solver.
  - by rewrite Hne.
  - rewrite Hv in Hj. cbn [marshal] in Hj.
    destruct (mapM _ _) as [items|] eqn:Hitems; [|done].
    injection Hj as <-. exists items. split; [done|].
    rewrite Hcs. simpl. by apply Controls_marshal.
Qed.

End Presence.

Lemma isEmptyValue_extensions (p : Posture) :
  no_extensions p -> isEmptyValue (reflect_map (Posture_Extensions p)) = true.
Proof.
  unfold no_extensions. destruct (Posture_Extensions p) as [m|]; [|done].
  simpl. by intros ->.
Qed.

Lemma Posture_field_names (p : Posture) (fs : list (string * bool * GoValue)) :
  reflect_Posture p = VStruct fs -> NoDup (map field_name fs).
Proof. intros [= <-]. by apply (bool_decide_unpack _). Qed.

(** What the field tags give.  Whenever [ToJSON] returns a document for
    a posture, the document is an object in which: an organization that
    is not set,
    evidence references that are empty and extensions that are empty
    have no member at all, and so have the empty optional fields of the
    organization, of every framework and of every control; the
    frameworks always have a member, which is an array with one object
    per framework (the empty array for an empty slice) when the slice is
    not nil, and [null] when the slice is nil. *)
Theorem ToJSON_presence (fmt : Time -> option string)
    (iter : gmap string (option json) -> list (string * option json))
    (p : Posture) (doc : json) :
  result_of (ToJSON fmt iter) p = Some doc -> Posture_presence p doc.
Proof.
  unfold result_of, ToJSON, load. cbn [fst]. intros Hdoc.
  pose proof (Posture_field_names p _ eq_refl) as Hnames.
  apply marshal_struct in Hdoc as (ms & -> & Henc).
  exists ms. split; [done|]. repeat split.
  - destruct (Posture_Organization p) as [o|] eqn:Horg.
    + destruct (encode_fields_emitted _ "organization" true (reflect_Organization o)
                  _ _ Henc Hnames) as (j & Hj & Hm); [set_solver|done|].
      exists j. split; [done|]. by eapply Organization_marshal.
    + field_omitted Henc.
  - intros Hempty. field_omitted Henc.
  - intros Hempty.
    apply (encode_fields_omitted _ _ _ _ Henc). intros o v Hin.
    which_field Hin. split; [done|]. by apply isEmptyValue_extensions.
  - destruct (Posture_Frameworks p) as [fs|] eqn:Hfs.
    + destruct (encode_fields_emitted _ "frameworks" false
                  (VSlice (map reflect_Framework fs)) _ _ Henc Hnames)
        as (j & Hj & Hm); [set_solver|done|].
      cbn [marshal] in Hj.
      destruct (mapM _ _) as [items|] eqn:Hitems; [|done].
      injection Hj as <-. exists items. split; [done|].
      apply mapM_Some, Forall2_fmap_l in Hitems.
      eapply Forall2_impl; [exact Hitems|].
      intros f j. apply Framework_marshal.
    + destruct (encode_fields_emitted _ "frameworks" false VNil _ _ Henc Hnames)
        as (j & Hj & Hm); [set_solver|done|].
      by injection Hj as <-.
Qed.

Example sample_posture_document :
  result_of (ToJSON sample_format map_to_list) sample_posture = Some sample_document.
Proof. vm_compute. reflexivity. Qed.

Lemma ToJSON_presence_witness : Posture_presence sample_posture sample_document.
Proof.
  apply (ToJSON_presence sample_format map_to_list sample_posture sample_document).
  vm_compute. reflexivity.
Defined.

(** C5.  The frameworks of a posture made by a composite literal that
    leaves them out are the nil slice: the posture has no framework, and
    its document has [null] under the key frameworks, where the
    presence rules and the schema have the empty array, which the
    document of a posture made by [NewPosture] has. *)
Lemma nil_frameworks_written_as_null :
  len (Posture_Frameworks literal_posture) = 0 /\
  result_of (ToJSON sample_format map_to_list) literal_posture
  = Some (JObject [("version", JString "v1");
                   ("timestamp", JString "2025-10-16T12:00:00Z");
                   ("compliance_posture", JString "unknown");
                   ("frameworks", JNull)]) /\
  (forall fmt iter ms,
     result_of (ToJSON fmt iter) literal_posture = Some (JObject ms) ->
     member "frameworks" ms = Some JNull /\
     member "frameworks" ms <> Some (JArray [])) /\
  len (Posture_Frameworks (NewPosture sample_now)) = 0 /\
  result_of (ToJSON sample_format map_to_list) (NewPosture sample_now)
  = Some (JObject [("version", JString "v1");
                   ("timestamp", JString "2025-10-16T12:00:00Z");
                   ("compliance_posture", JString "");
                   ("frameworks", JArray [])]).
Proof.
  split; [reflexivity|]. split; [vm_compute; reflexivity|].
  split; [|split; [reflexivity|vm_compute; reflexivity]].
  intros fmt iter ms Hdoc.
  unfold result_of, ToJSON, load in Hdoc. cbn [fst] in Hdoc.
  apply marshal_struct in Hdoc as (ms' & [= <-] & Henc).
  destruct (encode_fields_emitted _ "frameworks" false VNil _ _ Henc)
    as (j & [= <-] & Hm).
  - by apply (bool_decide_unpack _).
  - set_solver.
  - done.
  - by rewrite Hm.
Qed.

(** ** The order of map keys *)

Lemma ascii_compare_refl (a : ascii) : Ascii.compare a a = Eq.
Proof. unfold Ascii.compare. apply N.compare_refl. Qed.

Lemma ascii_compare_lt_trans (a b c : ascii) :
  Ascii.compare a b = Lt -> Ascii.compare b c = Lt -> Ascii.compare a c = Lt.
Proof.
  unfold Ascii.compare. rewrite !N.compare_lt_iff. apply N.lt_trans.
Qed.

Lemma string_compare_lt_trans (s1 s2 s3 : string) :
  String.compare s1 s2 = Lt -> String.compare s2 s3 = Lt -> String.compare s1 s3 = Lt.
Proof.
  revert s2 s3.
  induction s1 as [|a s1 IH]; intros [|b s2] [|c s3]; simpl; try done.
  destruct (Ascii.compare a b) eqn:Hab; [|clear IH|done];
    (destruct (Ascii.compare b c) eqn:Hbc; [| |done]); intros H12 H23.
  - apply Ascii.compare_eq_iff in Hab as ->.
    apply Ascii.compare_eq_iff in Hbc as ->.
    rewrite ascii_compare_refl. by apply (IH s2).
  - apply Ascii.compare_eq_iff in Hab as ->. by rewrite Hbc.
  - apply Ascii.compare_eq_iff in Hbc as <-. by rewrite Hab.
  - by rewrite (ascii_compare_lt_trans a b c).
Qed.

Lemma string_leb_cases (s1 s2 : string) :
  String.leb s1 s2 = true <-> s1 = s2 \/ String.compare s1 s2 = Lt.
Proof.
  unfold String.leb. split.
  - destruct (String.compare s1 s2) eqn:Hcmp; [|by right|done].
    left. by apply String.compare_eq_iff.
  - intros [-> | ->]; [|done].
    assert (String.compare s2 s2 = Eq) as ->; [|done].
    induction s2 as [|a s2 IH]; simpl; [done|]. by rewrite ascii_compare_refl.
Qed.

Lemma string_leb_trans (s1 s2 s3 : string) :
  String.leb s1 s2 = true -> String.leb s2 s3 = true -> String.leb s1 s3 = true.
Proof.
  rewrite !string_leb_cases. intros [-> | H12] [-> | H23]; auto.
  right. by apply (string_compare_lt_trans s1 s2 s3).
Qed.

#[global] Instance key_le_trans {A : Type} : Transitive (@key_le A).
Proof. intros a b c. unfold key_le. apply string_leb_trans. Qed.

#[global] Instance key_le_total {A : Type} : Total (@key_le A).
Proof. intros a b. unfold key_le. apply String.leb_total. Qed.

(** Entries with distinct keys have one sorted order: sorting any two
    arrangements of them gives the same list. *)
Lemma sorted_entries_unique {A : Type} (l1 l2 : list (string * A)) :
  l1 ≡ₚ l2 -> NoDup (l1.*1) ->
  merge_sort key_le l1 = merge_sort key_le l2.
Proof.
  intros Hperm Hnd.
  apply (Sorted_unique_strong key_le).
  - intros [k1 x1] [k2 x2] H1 H2 Hle Hge. unfold key_le in *. simpl in *.
    assert (k1 = k2) as <- by by apply String.leb_antisym.
    f_equal.
    rewrite merge_sort_Permutation in H1.
    rewrite merge_sort_Permutation, <- Hperm in H2.
    clear -H1 H2 Hnd.
    induction l1 as [|[k x] l1 IH]; [by apply elem_of_nil in H1|].
    simpl in Hnd. apply NoDup_cons in Hnd as [Hk Hnd].
    apply elem_of_cons in H1 as [H1|H1];
      apply elem_of_cons in H2 as [H2|H2]; simplify_eq; try done.
    + exfalso. apply Hk. apply list_elem_of_fmap. by exists (k, x2).
    + exfalso. apply Hk. apply list_elem_of_fmap. by exists (k, x1).
    + by apply IH.
  - apply Sorted_merge_sort, _.
  - apply Sorted_merge_sort, _.
  - by rewrite !merge_sort_Permutation.
Qed.

(** ** Induction on values *)

Lemma list_sum_elem {A : Type} (f : A -> nat) (l : list A) (x : A) :
  x ∈ l -> f x <= list_sum (map f l).
Proof.
  induction 1 as [x l|x y l _ IH]; simpl; lia.
Qed.

Lemma map_fold_elem (m : gmap string GoValue) (k : string) (x : GoValue) :
  m !! k = Some x ->
  GoValue_size x <= map_fold (fun _ x acc => GoValue_size x + acc) 0 m.
Proof.
  revert k x.
  apply (map_fold_weak_ind
           (fun r (m : gmap string GoValue) =>
              forall k x, m !! k = Some x -> GoValue_size x <= r)).
  - intros k x. by rewrite lookup_empty.
  - intros i y m' r Hi IH k x. rewrite lookup_insert.
    case_decide as Hik.
    + intros [= ->]. lia.
    + intros Hx. specialize (IH k x Hx). lia.
Qed.

(** Induction on a value, with the hypothesis for every element of a
    slice, every value of a map and every field of a struct. *)
Lemma GoValue_nested_ind (P : GoValue -> Prop) :
  P VNil ->
  (forall b, P (VBool b)) ->
  (forall z, P (VInt z)) ->
  (forall f, P (VFloat f)) ->
  (forall s, P (VString s)) ->
  (forall t, P (VTime t)) ->
  (forall l, Forall P l -> P (VSlice l)) ->
  (forall m, map_Forall (fun _ => P) m -> P (VMap m)) ->
  (forall fs, Forall (fun fld => P (snd fld)) fs -> P (VStruct fs)) ->
  forall v, P v.
Proof.
  intros Hnil Hbool Hint Hfloat Hstring Htime Hslice Hmap Hstruct v.
  remember (GoValue_size v) as n eqn:Hn.
  revert v Hn. induction n as [n IH] using lt_wf_ind. intros v ->.
  destruct v as [| | | | | |l|m|fs]; auto.
  - apply Hslice, Forall_forall. intros x Hx.
    apply (IH (GoValue_size x)); [|done].
    pose proof (list_sum_elem GoValue_size l x Hx). simpl. lia.
  - apply Hmap, map_Forall_lookup. intros k x Hx.
    apply (IH (GoValue_size x)); [|done].
    pose proof (map_fold_elem m k x Hx). simpl. lia.
  - apply Hstruct, Forall_forall. intros fld Hfld.
    apply (IH (GoValue_size (snd fld))); [|done].
    pose proof (list_sum_elem (fun fld => GoValue_size (snd fld)) fs fld Hfld).
    simpl. lia.
Qed.

(** ** Serialization: one document per posture *)

Lemma encode_fields_ext (f g : GoValue -> option json)
    (fs : list (string * bool * GoValue)) :
  Forall (fun fld => f (snd fld) = g (snd fld)) fs ->
  encode_fields f fs = encode_fields g fs.
Proof.
  induction 1 as [|[[n o] x] fs Hx _ IH]; simpl; [done|].
  simpl in Hx. by rewrite Hx, IH.
Qed.

Lemma sorted_iteration (iter1 iter2 : gmap string (option json) -> list (string * option json))
    (m : gmap string (option json)) :
  iteration_order iter1 -> iteration_order iter2 ->
  merge_sort key_le (iter1 m) = merge_sort key_le (iter2 m).
Proof.
  intros H1 H2. apply sorted_entries_unique.
  - by rewrite (H1 m), (H2 m).
  - rewrite (H1 m). apply NoDup_fst_map_to_list.
Qed.

(** The document does not depend on the order in which maps are
    iterated. *)
Lemma marshal_iteration_independent (fmt : Time -> option string)
    (iter1 iter2 : gmap string (option json) -> list (string * option json)) :
  iteration_order iter1 -> iteration_order iter2 ->
  forall v, marshal fmt iter1 v = marshal fmt iter2 v.
Proof.
  intros H1 H2 v.
  induction v as [| | | | | |l IH|m IH|fs IH] using GoValue_nested_ind;
    try reflexivity; cbn [marshal].
  - by rewrite (Forall_mapM_ext _ _ _ IH).
  - assert (marshal fmt iter1 <$> m = marshal fmt iter2 <$> m) as ->.
    { apply map_fmap_ext. intros k x Hx.
      rewrite map_Forall_lookup in IH. by apply (IH k). }
    by rewrite (sorted_iteration iter1 iter2 _ H1 H2).
  - by rewrite (encode_fields_ext _ _ _ IH).
Qed.

(** C6.  Serializing a posture twice, with nothing done to it in
    between, gives the same document both times, whatever order the
    runtime iterates its maps in each time; serializing leaves the
    posture as it was, and the timestamp written is the text of the
    posture's stored timestamp. *)
Theorem ToJSON_repeatable (fmt : Time -> option string)
    (iter1 iter2 : gmap string (option json) -> list (string * option json))
    (p : Posture) :
  iteration_order iter1 -> iteration_order iter2 ->
  result_of (ToJSON fmt iter2) (receiver_after (ToJSON fmt iter1) p)
  = result_of (ToJSON fmt iter1) p /\
  receiver_after (ToJSON fmt iter1) p = p /\
  (forall ms, result_of (ToJSON fmt iter1) p = Some (JObject ms) ->
              member "timestamp" ms = JString <$> fmt (Posture_Timestamp p)).
Proof.
  intros H1 H2. unfold result_of, receiver_after, ToJSON, load. cbn [fst snd].
  split; [|split].
  - by apply marshal_iteration_independent.
  - done.
  - intros ms Hdoc.
    apply marshal_struct in Hdoc as (ms' & [= <-] & Henc).
    destruct (encode_fields_emitted _ "timestamp" false (VTime (Posture_Timestamp p))
                _ _ Henc) as (j & Hj & Hm).
    + by apply (bool_decide_unpack _).
    + set_solver.
    + done.
    + cbn [marshal] in Hj. by rewrite Hm, Hj.
Qed.

(** The builder methods, the aggregation and the serialization leave the
    timestamp that [NewPosture] stored. *)
Lemma Timestamp_kept (fmt : Time -> option string)
    (iter : gmap string (option json) -> list (string * option json))
    (p : Posture) :
  (forall f, Posture_Timestamp (receiver_after (AddFramework f) p) = Posture_Timestamp p) /\
  (forall o, Posture_Timestamp (receiver_after (SetOrganization o) p) = Posture_Timestamp p) /\
  (forall c, Posture_Timestamp (receiver_after (SetPosture c) p) = Posture_Timestamp p) /\
  (forall k v, Posture_Timestamp (receiver_after (AddExtension k v) p) = Posture_Timestamp p) /\
  Posture_Timestamp (receiver_after CalculateOverallPosture p) = Posture_Timestamp p /\
  Posture_Timestamp (receiver_after (ToJSON fmt iter) p) = Posture_Timestamp p /\
  Posture_Timestamp (receiver_after (ToJSONIndent fmt iter) p) = Posture_Timestamp p.
Proof.
  repeat split; try done.
  - intros k v. unfold receiver_after, AddExtension, mbind, state_bind, load.
    by destruct (Posture_Extensions p).
  - unfold receiver_after. by rewrite CalculateOverallPosture_unfold.
Qed.

Lemma reverse_iteration_order : iteration_order (fun m => reverse (map_to_list m)).
Proof. intros m. apply reverse_Permutation. Qed.

Lemma map_to_list_iteration_order : iteration_order map_to_list.
Proof. by intros m. Qed.

Lemma ToJSON_repeatable_witness :
  result_of (ToJSON sample_format (fun m => reverse (map_to_list m)))
    (receiver_after (ToJSON sample_format map_to_list) sample_posture)
  = result_of (ToJSON sample_format map_to_list) sample_posture /\
  receiver_after (ToJSON sample_format map_to_list) sample_posture = sample_posture /\
  (forall ms, result_of (ToJSON sample_format map_to_list) sample_posture
              = Some (JObject ms) ->
              member "timestamp" ms
              = JString <$> sample_format (Posture_Timestamp sample_posture)).
Proof.
  apply (ToJSON_repeatable sample_format map_to_list
           (fun m => reverse (map_to_list m)) sample_posture).
  - exact map_to_list_iteration_order.
  - exact reverse_iteration_order.
Defined.

(** ** The handler *)

Example serve_post :
  serve sample_format map_to_list sample_provider post_cpx
  = {| Header := {[ "Content-Type" := "text/plain; charset=utf-8";
                    "X-Content-Type-Options" := "nosniff" ]};
       wroteHeader := Some (405, {[ "Content-Type" := "text/plain; charset=utf-8";
                                    "X-Content-Type-Options" := "nosniff" ]});
       body := [Text (String.append "Method not allowed" newline)] |}.
Proof. vm_compute. reflexivity. Qed.

Example serve_sample :
  response_status (serve sample_format map_to_list sample_provider get_cpx) = Some 200 /\
  body (serve sample_format map_to_list sample_provider get_cpx) = [Document sample_document] /\
  response_header (serve sample_format map_to_list sample_provider get_cpx) "x-cpx-version" = "v1".
Proof. repeat split; vm_compute; reflexivity. Qed.

(** C8.  When the provider fails the status is 500, but the body is the
    plain line [Internal server error], sent as [text/plain], and not
    the JSON envelope.  The handler's own branch for YAML passes an
    envelope to the same [http.Error], which sends it as a plain line
    too and replaces the content type the branch had set. *)
Lemma Handler_error_body_is_plain_text :
  response_status (serve sample_format map_to_list failing_provider get_cpx) = Some 500 /\
  body (serve sample_format map_to_list failing_provider get_cpx)
  = [Text (String.append "Internal server error" newline)] /\
  body (serve sample_format map_to_list failing_provider get_cpx)
  <> [Text error_envelope] /\
  response_header (serve sample_format map_to_list failing_provider get_cpx) "Content-Type"
  = "text/plain; charset=utf-8" /\
  response_status (serve sample_format map_to_list sample_provider get_cpx_yaml) = Some 501 /\
  body (serve sample_format map_to_list sample_provider get_cpx_yaml)
  = [Text (String.append yaml_note newline)] /\
  response_header (serve sample_format map_to_list sample_provider get_cpx_yaml) "Content-Type"
  = "text/plain; charset=utf-8".
Proof. repeat split; try (vm_compute; reflexivity). vm_compute. discriminate. Qed.

Lemma http_Error_fresh (error : string) (code : nat) :
  snd (http_Error error code new_ResponseWriter)
  = {| Header := {[ "Content-Type" := "text/plain; charset=utf-8";
                    "X-Content-Type-Options" := "nosniff" ]};
       wroteHeader := Some (code, {[ "Content-Type" := "text/plain; charset=utf-8";
                                     "X-Content-Type-Options" := "nosniff" ]});
       body := [Text (String.append error newline)] |}.
Proof. reflexivity. Qed.

(** The handler's answers.  On a fresh response writer the handler
    answers:
    - a request whose method is not GET with status 405;
    - a GET request whose provider returns an error with status 500 and
      the plain-text line [Internal server error];
    - a GET request with [format=yaml] whose provider succeeds with
      status 501;
    - any other GET request whose provider succeeds and whose posture
      serializes with status 200, the document as body, content type
      [application/json] and the header [X-CPX-Version: v1];
    - and with status 500 when the posture does not serialize. *)
Theorem Handler_responses (fmt : Time -> option string)
    (iter : gmap string (option json) -> list (string * option json))
    (provider : unit -> provided) (r : Request) :
  (Request_Method r <> "GET" ->
   response_status (serve fmt iter provider r) = Some StatusMethodNotAllowed) /\
  (Request_Method r = "GET" ->
   forall posture e, provider tt = (posture, Some e) ->
     response_status (serve fmt iter provider r) = Some StatusInternalServerError /\
     body (serve fmt iter provider r)
     = [Text (String.append "Internal server error" newline)] /\
     response_header (serve fmt iter provider r) "Content-Type"
     = "text/plain; charset=utf-8") /\
  (Request_Method r = "GET" ->
   forall posture, provider tt = (posture, None) ->
     Values_Get (Request_Query r) "format" = "yaml" ->
     response_status (serve fmt iter provider r) = Some StatusNotImplemented) /\
  (Request_Method r = "GET" ->
   forall posture doc, provider tt = (posture, None) ->
     Values_Get (Request_Query r) "format" <> "yaml" ->
     marshal fmt iter (reflect_ptr reflect_Posture posture) = Some doc ->
     response_status (serve fmt iter provider r) = Some StatusOK /\
     body (serve fmt iter provider r) = [Document doc] /\
     response_header (serve fmt iter provider r) "Content-Type" = "application/json" /\
     response_header (serve fmt iter provider r) "X-CPX-Version" = Version) /\
  (Request_Method r = "GET" ->
   forall posture, provider tt = (posture, None) ->
     Values_Get (Request_Query r) "format" <> "yaml" ->
     marshal fmt iter (reflect_ptr reflect_Posture posture) = None ->
     response_status (serve fmt iter provider r) = Some StatusInternalServerError).
Proof.
  unfold serve, Handler.
  split; [|split; [|split; [|split]]].
  - intros Hm. apply String.eqb_neq in Hm. rewrite Hm. cbn [negb].
    by rewrite http_Error_fresh.
  - intros Hm posture e Hp. apply String.eqb_eq in Hm. rewrite Hm, Hp. cbn [negb].
    by rewrite http_Error_fresh.
  - intros Hm posture Hp Hf. apply String.eqb_eq in Hm, Hf.
    rewrite Hm, Hp, Hf. reflexivity.
  - intros Hm posture doc Hp Hf Hdoc. apply String.eqb_eq in Hm.
    apply String.eqb_neq in Hf. rewrite Hm, Hp, Hf, Hdoc. cbn [negb].
    repeat split.
  - intros Hm posture Hp Hf Hdoc. apply String.eqb_eq in Hm.
    apply String.eqb_neq in Hf. rewrite Hm, Hp, Hf, Hdoc. cbn [negb].
    by rewrite http_Error_fresh.
Qed.

(** ** Serialization: when it succeeds *)

Lemma encode_fields_is_Some (enc : GoValue -> option json)
    (fs : list (string * bool * GoValue)) :
  Forall (fun fld => is_Some (enc (snd fld))) fs -> is_Some (encode_fields enc fs).
Proof.
  induction 1 as [|[[n o] x] fs [j Hj] _ [ms IH]]; simpl; [done|].
  destruct (o && isEmptyValue x); [by exists ms|].
  simpl in Hj. rewrite Hj, IH. by eexists.
Qed.

Lemma marshal_strings (fmt : Time -> option string)
    (iter : gmap string (option json) -> list (string * option json))
    (s : slice string) :
  is_Some (marshal fmt iter (reflect_slice VString s)).
Proof.
  destruct s as [l|]; [|by eexists]. cbn [reflect_slice marshal].
  assert (is_Some (mapM (marshal fmt iter) (map VString l))) as [js ->]; [|by eexists].
  apply mapM_is_Some, Forall_fmap, Forall_forall. intros x _. by eexists.
Qed.

Lemma marshal_Control_is_Some (fmt : Time -> option string)
    (iter : gmap string (option json) -> list (string * option json))
    (c : Control) :
  is_Some (marshal fmt iter (reflect_Control c)).
Proof.
  unfold reflect_Control. cbn [marshal].
  assert (is_Some (encode_fields (marshal fmt iter)
            [("id", false, VString (Control_ID c));
             ("title", true, VString (Control_Title c));
             ("status", false, VString (Control_Status c));
             ("reason", true, VString (Control_Reason c));
             ("remediation_date", true, VString (Control_RemediationDate c));
             ("evidence_refs", true, reflect_slice VString (Control_EvidenceRefs c))]))
    as [ms ->]; [|by eexists].
  apply encode_fields_is_Some.
  repeat (apply Forall_cons; split; [first [by eexists | apply marshal_strings]|]).
  apply Forall_nil_2.
Qed.

Lemma marshal_Framework_is_Some (fmt : Time -> option string)
    (iter : gmap string (option json) -> list (string * option json))
    (f : Framework) :
  finite_score f -> is_Some (marshal fmt iter (reflect_Framework f)).
Proof.
  intros Hscore. unfold reflect_Framework. cbn [marshal].
  match goal with
  | |- is_Some (JObject <$> ?e) => assert (is_Some e) as [ms ->]; [|by eexists]
  end.
  apply encode_fields_is_Some.
  repeat (apply Forall_cons; split; [by eexists|]).
  apply Forall_cons; split.
  { cbn [snd marshal]. unfold finite_score in Hscore. rewrite Hscore. by eexists. }
  repeat (apply Forall_cons; split; [by eexists|]).
  apply Forall_cons; split; [|apply Forall_nil_2].
  cbn [snd]. destruct (Framework_Controls f) as [cs|]; [|by eexists].
  cbn [reflect_slice marshal].
  assert (is_Some (mapM (marshal fmt iter) (map reflect_Control cs))) as [js ->];
    [|by eexists].
  apply mapM_is_Some, Forall_fmap, Forall_forall. intros c _.
  apply marshal_Control_is_Some.
Qed.

(** [ToJSON] returns a document when the timestamp has an RFC 3339 text,
    every score is a finite number, and every evidence reference and the
    extensions can be encoded. *)
Lemma ToJSON_succeeds (fmt : Time -> option string)
    (iter : gmap string (option json) -> list (string * option json))
    (p : Posture) :
  is_Some (fmt (Posture_Timestamp p)) ->
  Forall finite_score (elems (Posture_Frameworks p)) ->
  Forall (fun v => is_Some (marshal fmt iter v)) (elems (Posture_EvidenceRefs p)) ->
  is_Some (marshal fmt iter (reflect_map (Posture_Extensions p))) ->
  is_Some (result_of (ToJSON fmt iter) p).
Proof.
  intros [ts Hts] Hscores Hrefs Hext.
  unfold result_of, ToJSON, load, reflect_Posture. cbn [fst marshal].
  match goal with
  | |- is_Some (JObject <$> ?e) => assert (is_Some e) as [ms ->]; [|by eexists]
  end.
  apply encode_fields_is_Some.
  apply Forall_cons; split; [by eexists|].
  apply Forall_cons; split; [cbn [snd marshal]; rewrite Hts; by eexists|].
  apply Forall_cons; split; [by eexists|].
  apply Forall_cons; split.
  { cbn [snd]. destruct (Posture_Organization p) as [o|]; [|by eexists].
    cbn [reflect_ptr reflect_Organization marshal].
    match goal with
    | |- is_Some (JObject <$> ?e) => assert (is_Some e) as [ms ->]; [|by eexists]
    end.
    apply encode_fields_is_Some.
    repeat (apply Forall_cons; split; [by eexists|]). apply Forall_nil_2. }
  apply Forall_cons; split.
  { cbn [snd]. destruct (Posture_Frameworks p) as [fs|]; [|by eexists].
    cbn [reflect_slice marshal].
    assert (is_Some (mapM (marshal fmt iter) (map reflect_Framework fs))) as [js ->];
      [|by eexists].
    apply mapM_is_Some, Forall_fmap.
    eapply Forall_impl; [exact Hscores|].
    intros f Hf. by apply marshal_Framework_is_Some. }
  apply Forall_cons; split.
  { cbn [snd]. destruct (Posture_EvidenceRefs p) as [rs|]; [|by eexists].
    cbn [reflect_slice marshal].
    assert (is_Some (mapM (marshal fmt iter) (map id rs))) as [js ->]; [|by eexists].
    apply mapM_is_Some, Forall_fmap. exact Hrefs. }
  apply Forall_cons; split; [exact Hext|apply Forall_nil_2].
Qed.

(** ** Chains of builder calls *)

Lemma run_calls_snoc (cs : list builder_call) (c : builder_call) (p : Posture) :
  run_calls (cs ++ [c]) p = receiver_after (run_call c) (run_calls cs p).
Proof. unfold run_calls. by rewrite fold_left_app. Qed.

Lemma AddExtension_receiver (key : string) (value : GoValue) (p : Posture) :
  receiver_after (AddExtension key value) p
  = {| Posture_Version := Posture_Version p;
       Posture_Timestamp := Posture_Timestamp p;
       Posture_CompliancePosture := Posture_CompliancePosture p;
       Posture_Organization := Posture_Organization p;
       Posture_Frameworks := Posture_Frameworks p;
       Posture_EvidenceRefs := Posture_EvidenceRefs p;
       Posture_Extensions := Some (<[key := value]> (entries (Posture_Extensions p))) |}.
Proof.
  unfold receiver_after, AddExtension, mbind, state_bind, load.
  destruct (Posture_Extensions p) as [m|] eqn:E; simpl; [|done].
  by rewrite E.
Qed.

Lemma last_omap_snoc {A B : Type} (f : A -> option B) (l : list A) (x : A) :
  last (omap f (l ++ [x])) = match f x with Some y => Some y | None => last (omap f l) end.
Proof.
  rewrite omap_app. simpl. destruct (f x) as [y|]; simpl.
  - apply last_snoc.
  - by rewrite app_nil_r.
Qed.

(** The fields of the receiver after a chain of calls on a new posture. *)
Lemma run_calls_NewPosture (now : Time) (cs : list builder_call) :
  Posture_Version (run_calls cs (NewPosture now)) = Version /\
  Posture_Timestamp (run_calls cs (NewPosture now)) = Time_UTC now /\
  Posture_EvidenceRefs (run_calls cs (NewPosture now)) = None /\
  Posture_Frameworks (run_calls cs (NewPosture now)) = Some (added_frameworks cs) /\
  Posture_CompliancePosture (run_calls cs (NewPosture now)) = default "" (last_posture cs) /\
  Posture_Organization (run_calls cs (NewPosture now)) = last_organization cs /\
  (forall k, entries (Posture_Extensions (run_calls cs (NewPosture now))) !! k
             = last_extension k cs) /\
  (Posture_Extensions (run_calls cs (NewPosture now)) = None
   <-> forall k, last_extension k cs = None).
Proof.
  induction cs as [|c cs IH] using rev_ind.
  - repeat split; done.
  - destruct IH as (Hv & Ht & He & Hf & Hp & Ho & Hx & Hn).
    unfold added_frameworks, last_posture, last_organization, last_extension in *.
    rewrite run_calls_snoc.
    destruct c as [f|org|posture|key value]; cbn [run_call].
    + unfold receiver_after. simpl. rewrite Hf, omap_app, !last_omap_snoc.
      repeat split; try done.
      * intros k. rewrite last_omap_snoc. apply Hx.
      * intros H k. rewrite last_omap_snoc. by apply Hn.
      * intros H. apply Hn. intros k. specialize (H k).
        by rewrite last_omap_snoc in H.
    + unfold receiver_after. simpl. rewrite omap_app, !last_omap_snoc, app_nil_r.
      repeat split; try done.
      * intros k. rewrite last_omap_snoc. apply Hx.
      * intros H k. rewrite last_omap_snoc. by apply Hn.
      * intros H. apply Hn. intros k. specialize (H k).
        by rewrite last_omap_snoc in H.
    + unfold receiver_after. simpl. rewrite omap_app, !last_omap_snoc, app_nil_r.
      repeat split; try done.
      * intros k. rewrite last_omap_snoc. apply Hx.
      * intros H k. rewrite last_omap_snoc. by apply Hn.
      * intros H. apply Hn. intros k. specialize (H k).
        by rewrite last_omap_snoc in H.
    + rewrite AddExtension_receiver. simpl.
      rewrite omap_app, !last_omap_snoc, app_nil_r.
      repeat split; try done.
      * intros k. rewrite last_omap_snoc. unfold entries at 1. simpl.
        destruct (String.eqb k key) eqn:Hk.
        -- apply String.eqb_eq in Hk as ->. apply lookup_insert_eq.
        -- apply String.eqb_neq in Hk. rewrite lookup_insert_ne by done. apply Hx.
      * intros H. specialize (H key). rewrite last_omap_snoc in H.
        by rewrite String.eqb_refl in H.
Qed.

(** X1.  The posture that a chain of builder calls makes out of a new
    posture: the version and the timestamp are those of [NewPosture],
    the evidence references stay nil, the frameworks are the added ones
    in call order, the compliance posture and the organization are those
    of the last setter call (the empty string and nil without one), and
    each extension key holds the value of the last [AddExtension] for
    it; the extensions map is nil exactly when no key was ever added. *)
Theorem builder_chain (now : Time) (cs : list builder_call) :
  Posture_Version (run_calls cs (NewPosture now)) = Version /\
  Posture_Timestamp (run_calls cs (NewPosture now)) = Time_UTC now /\
  Posture_EvidenceRefs (run_calls cs (NewPosture now)) = None /\
  Posture_Frameworks (run_calls cs (NewPosture now)) = Some (added_frameworks cs) /\
  Posture_CompliancePosture (run_calls cs (NewPosture now)) = default "" (last_posture cs) /\
  Posture_Organization (run_calls cs (NewPosture now)) = last_organization cs /\
  (forall k, entries (Posture_Extensions (run_calls cs (NewPosture now))) !! k
             = last_extension k cs) /\
  (Posture_Extensions (run_calls cs (NewPosture now)) = None
   <-> forall k, last_extension k cs = None).
Proof. apply run_calls_NewPosture. Qed.

(** X2.  [AddExtension] on any posture: afterwards the key holds the
    value and every other key holds what it held (a nil map counting as
    empty), the map is not nil, and the other fields are untouched; a
    second call with the same key replaces the first one's value; calls
    with different keys can be swapped. *)
Theorem AddExtension_composes (p : Posture) (k : string) (v : GoValue) :
  entries (Posture_Extensions (receiver_after (AddExtension k v) p)) !! k = Some v /\
  (forall k', k' <> k ->
     entries (Posture_Extensions (receiver_after (AddExtension k v) p)) !! k'
     = entries (Posture_Extensions p) !! k') /\
  Posture_Extensions (receiver_after (AddExtension k v) p) <> None /\
  Posture_Frameworks (receiver_after (AddExtension k v) p) = Posture_Frameworks p /\
  Posture_CompliancePosture (receiver_after (AddExtension k v) p)
  = Posture_CompliancePosture p /\
  (forall v', receiver_after (AddExtension k v) (receiver_after (AddExtension k v') p)
              = receiver_after (AddExtension k v) p) /\
  (forall k' v', k' <> k ->
     receiver_after (AddExtension k v) (receiver_after (AddExtension k' v') p)
     = receiver_after (AddExtension k' v') (receiver_after (AddExtension k v) p)).
Proof.
  rewrite !AddExtension_receiver. unfold entries. simpl.
  repeat split.
  - apply lookup_insert_eq.
  - intros k' Hk. by rewrite lookup_insert_ne.
  - done.
  - intros v'. rewrite !AddExtension_receiver. unfold entries. simpl.
    by rewrite insert_insert_eq.
  - intros k' v' Hk. rewrite !AddExtension_receiver. unfold entries. simpl.
    do 2 f_equal. by apply insert_insert_ne.
Qed.

(** ** Aggregation: the outcomes *)

Lemma forallb_Forall_compliant (fs : list Framework) :
  forallb is_compliant fs = true
  <-> Forall (fun f => Framework_Status f = StatusCompliant) fs.
Proof.
  rewrite forallb_forall, Forall_forall. unfold is_compliant.
  split; intros H f Hf.
  - apply String.eqb_eq, H. by apply list_elem_of_In.
  - apply String.eqb_eq, H. by apply list_elem_of_In.
Qed.

Lemma existsb_Forall_not_compliant (fs : list Framework) :
  existsb is_compliant fs = false
  <-> Forall (fun f => Framework_Status f <> StatusCompliant) fs.
Proof.
  induction fs as [|f fs IH]; simpl.
  - split; [constructor|done].
  - rewrite orb_false_iff, Forall_cons, IH. unfold is_compliant.
    by rewrite String.eqb_neq.
Qed.

Lemma existsb_Exists_compliant (fs : list Framework) :
  existsb is_compliant fs = true
  <-> Exists (fun f => Framework_Status f = StatusCompliant) fs.
Proof.
  induction fs as [|f fs IH]; simpl.
  - split; [done|]. by intros H%Exists_nil.
  - rewrite orb_true_iff, Exists_cons, IH. unfold is_compliant.
    by rewrite String.eqb_eq.
Qed.

Lemma forallb_Exists_not_compliant (fs : list Framework) :
  forallb is_compliant fs = false
  <-> Exists (fun f => Framework_Status f <> StatusCompliant) fs.
Proof.
  induction fs as [|f fs IH]; simpl.
  - split; [done|]. by intros H%Exists_nil.
  - rewrite andb_false_iff, Exists_cons, IH. unfold is_compliant.
    by rewrite String.eqb_neq.
Qed.

(** In a list that is not empty, if every status is compliant then some
    status is. *)
Lemma forallb_existsb_compliant (f : Framework) (fs : list Framework) :
  forallb is_compliant (f :: fs) = true -> existsb is_compliant (f :: fs) = true.
Proof. simpl. intros [-> _]%andb_true_iff. done. Qed.

(** X3.  The four outcomes of [CalculateOverallPosture], each with the
    postures that give it: the result is always one of the four posture
    constants; it is unknown exactly when there is no framework,
    compliant exactly when there is one and every status is compliant,
    non-compliant exactly when there is one and no status is compliant,
    and partially compliant exactly when some status is compliant and
    some is not. *)
Theorem CalculateOverallPosture_outcomes (p : Posture) :
  (result_of CalculateOverallPosture p = PostureUnknown
   <-> len (Posture_Frameworks p) = 0) /\
  (result_of CalculateOverallPosture p = PostureCompliant
   <-> len (Posture_Frameworks p) <> 0 /\
       Forall (fun f => Framework_Status f = StatusCompliant) (elems (Posture_Frameworks p))) /\
  (result_of CalculateOverallPosture p = PostureNonCompliant
   <-> len (Posture_Frameworks p) <> 0 /\
       Forall (fun f => Framework_Status f <> StatusCompliant) (elems (Posture_Frameworks p))) /\
  (result_of CalculateOverallPosture p = PosturePartiallyCompliant
   <-> Exists (fun f => Framework_Status f = StatusCompliant) (elems (Posture_Frameworks p)) /\
       Exists (fun f => Framework_Status f <> StatusCompliant) (elems (Posture_Frameworks p))) /\
  (result_of CalculateOverallPosture p = PostureUnknown \/
   result_of CalculateOverallPosture p = PostureCompliant \/
   result_of CalculateOverallPosture p = PostureNonCompliant \/
   result_of CalculateOverallPosture p = PosturePartiallyCompliant).
Proof.
  unfold result_of, len. rewrite CalculateOverallPosture_unfold. cbn [fst].
  rewrite <- forallb_Forall_compliant, <- existsb_Forall_not_compliant.
  rewrite <- existsb_Exists_compliant, <- forallb_Exists_not_compliant.
  destruct (elems (Posture_Frameworks p)) as [|f fs]; [by intuition|].
  pose proof (forallb_existsb_compliant f fs) as Hboth.
  set (l := f :: fs) in *. assert (length l <> 0) as Hl by done. clearbody l.
  unfold PostureUnknown, PostureCompliant, PostureNonCompliant,
    PosturePartiallyCompliant.
  destruct (forallb is_compliant l), (existsb is_compliant l);
    try specialize (Hboth eq_refl); naive_solver.
Qed.

(** X4.  Counting one framework more: the overall posture after
    [AddFramework] is a function of the overall posture before and of
    whether the added framework's status is compliant.  A posture that
    was partially compliant stays so; a compliant one stays compliant
    only if the added framework is compliant. *)
Theorem CalculateOverallPosture_after_AddFramework (p : Posture) (f : Framework) :
  result_of CalculateOverallPosture (receiver_after (AddFramework f) p)
  = posture_with (result_of CalculateOverallPosture p) (is_compliant f).
Proof.
  unfold result_of, receiver_after. rewrite !CalculateOverallPosture_unfold.
  cbn [fst].
  assert (elems (Posture_Frameworks (AddFramework f p).2)
          = elems (Posture_Frameworks p) ++ [f]) as -> by reflexivity.
  destruct (elems (Posture_Frameworks p)) as [|g gs].
  - simpl. by destruct (is_compliant f).
  - cbn [app forallb existsb]. rewrite forallb_app, existsb_app. simpl.
    rewrite andb_true_r, orb_false_r.
    by destruct (is_compliant g), (forallb is_compliant gs),
                (existsb is_compliant gs), (is_compliant f).
Qed.

(** ** Serialization: order of keys, required fields *)

Lemma encode_fields_sublist (enc : GoValue -> option json)
    (fs : list (string * bool * GoValue)) (ms : list (string * json)) :
  encode_fields enc fs = Some ms -> keys ms `sublist_of` map field_name fs.
Proof.
  revert ms. induction fs as [|[[n o] v] fs IH]; intros ms Henc; simpl in Henc.
  - injection Henc as <-. constructor.
  - destruct (o && isEmptyValue v).
    + apply sublist_cons. by apply IH.
    + destruct (enc v) as [j|]; [|done]. simpl in Henc.
      destruct (encode_fields enc fs) as [ms'|]; [|done].
      injection Henc as <-. simpl. apply sublist_skip. by apply IH.
Qed.

Lemma member_in_keys (k : string) (ms : list (string * json)) (j : json) :
  member k ms = Some j -> k ∈ keys ms.
Proof.
  induction ms as [|[k' x] ms IH]; [done|]. simpl.
  destruct (String.eqb k k') eqn:Hk.
  - apply String.eqb_eq in Hk as <-. intros _. apply elem_of_cons. by left.
  - intros Hm. apply elem_of_cons. right. by apply IH.
Qed.

(** The text written for a string: ASCII and well-formed encodings are
    kept, a stray byte becomes U+FFFD, and so does each byte of an
    overlong encoding and of an encoded surrogate. *)
Example json_text_samples :
  json_text "partially_compliant" = "partially_compliant" /\
  json_text replacement = replacement /\
  json_text (String.append "ok" byte_FF) = String.append "ok" replacement /\
  json_text (String "192"%char (String "128"%char EmptyString))
  = String.append replacement replacement /\
  json_text (String "237"%char (String "160"%char (String "128"%char EmptyString)))
  = String.append replacement (String.append replacement replacement) /\
  json_text (String "240"%char (String "159"%char (String "146"%char
              (String "169"%char EmptyString))))
  = String "240"%char (String "159"%char (String "146"%char
      (String "169"%char EmptyString))).
Proof. repeat split. Qed.

Lemma json_text_ascii (s : string) :
  forallb (byte_in 0 127) (list_ascii_of_string s) = true -> valid_UTF8 s.
Proof.
  unfold valid_UTF8, json_text. induction s as [|c s IH]; [done|].
  simpl. destruct (byte_in 0 127 c); [|done]. simpl. intros Hs. by rewrite IH.
Qed.

(** X5.  In every document that [ToJSON] returns, the keys come in the
    order of the struct's fields, none twice; the version, the
    timestamp, the compliance posture and the frameworks are always
    there, the empty string included; the version and the compliance
    posture are written as the text of what is stored: the stored
    string itself when it is valid UTF-8, and with U+FFFD for every
    byte that is not part of a valid encoding otherwise. *)
Theorem ToJSON_keys (fmt : Time -> option string)
    (iter : gmap string (option json) -> list (string * option json))
    (p : Posture) (ms : list (string * json)) :
  result_of (ToJSON fmt iter) p = Some (JObject ms) ->
  keys ms `sublist_of` Posture_keys /\
  NoDup (keys ms) /\
  member "version" ms = Some (JString (json_text (Posture_Version p))) /\
  (valid_UTF8 (Posture_Version p) ->
   member "version" ms = Some (JString (Posture_Version p))) /\
  (exists ts, fmt (Posture_Timestamp p) = Some ts /\
              member "timestamp" ms = Some (JString ts)) /\
  member "compliance_posture" ms
  = Some (JString (json_text (Posture_CompliancePosture p))) /\
  (valid_UTF8 (Posture_CompliancePosture p) ->
   member "compliance_posture" ms = Some (JString (Posture_CompliancePosture p))) /\
  "frameworks" ∈ keys ms.
Proof.
  unfold result_of, ToJSON, load. cbn [fst]. intros Hdoc.
  pose proof (Posture_field_names p _ eq_refl) as Hnames.
  apply marshal_struct in Hdoc as (ms' & [= <-] & Henc).
  pose proof (encode_fields_sublist _ _ _ Henc) as Hsub.
  split; [exact Hsub|]. split.
  { eapply sublist_NoDup; [|exact Hsub]. exact Hnames. }
  assert (member "version" ms = Some (JString (json_text (Posture_Version p)))) as Hver.
  { destruct (encode_fields_emitted _ "version" false (VString (Posture_Version p))
                _ _ Henc Hnames) as (j & [= <-] & Hm); [set_solver|done|done]. }
  assert (member "compliance_posture" ms
          = Some (JString (json_text (Posture_CompliancePosture p)))) as Hcp.
  { destruct (encode_fields_emitted _ "compliance_posture" false
                (VString (Posture_CompliancePosture p)) _ _ Henc Hnames)
      as (j & [= <-] & Hm); [set_solver|done|done]. }
  split; [exact Hver|]. split; [by intros <-|].
  split; [|split; [exact Hcp|split; [by intros <-|]]].
  - destruct (encode_fields_emitted _ "timestamp" false (VTime (Posture_Timestamp p))
                _ _ Henc Hnames) as (j & Hj & Hm); [set_solver|done|].
    cbn [marshal] in Hj. destruct (fmt (Posture_Timestamp p)) as [ts|]; [|done].
    injection Hj as <-. by exists ts.
  - destruct (encode_fields_emitted _ "frameworks" false
                (reflect_slice reflect_Framework (Posture_Frameworks p))
                _ _ Henc Hnames) as (j & _ & Hm); [set_solver|done|].
    by eapply member_in_keys.
Qed.

Lemma ToJSON_keys_witness :
  keys invalid_members `sublist_of` Posture_keys /\
  NoDup (keys invalid_members) /\
  member "version" invalid_members
  = Some (JString (json_text (Posture_Version invalid_posture))) /\
  (valid_UTF8 (Posture_Version invalid_posture) ->
   member "version" invalid_members = Some (JString (Posture_Version invalid_posture))) /\
  (exists ts, sample_format (Posture_Timestamp invalid_posture) = Some ts /\
              member "timestamp" invalid_members = Some (JString ts)) /\
  member "compliance_posture" invalid_members
  = Some (JString (json_text (Posture_CompliancePosture invalid_posture))) /\
  (valid_UTF8 (Posture_CompliancePosture invalid_posture) ->
   member "compliance_posture" invalid_members
   = Some (JString (Posture_CompliancePosture invalid_posture))) /\
  "frameworks" ∈ keys invalid_members.
Proof.
  apply (ToJSON_keys sample_format map_to_list invalid_posture).
  vm_compute. reflexivity.
Defined.

(** ** Serialization: frameworks, controls, evidence references *)

Lemma encode_fields_is_Some_iff (enc : GoValue -> option json)
    (fs : list (string * bool * GoValue)) :
  is_Some (encode_fields enc fs)
  <-> Forall (fun fld => written fld = true -> is_Some (enc (snd fld))) fs.
Proof.
  induction fs as [|[[n o] x] fs IH]; simpl.
  - split; [constructor|by eexists].
  - rewrite Forall_cons, <- IH. unfold written. simpl.
    destruct (o && isEmptyValue x); simpl.
    + split; [by intros H; split|by intros [_ H]].
    + destruct (enc x) as [j|]; simpl.
      * destruct (encode_fields enc fs) as [ms|]; simpl.
        -- split; [intros _; split; [by eexists|by eexists]|by eexists].
        -- split; [by intros [? ?]|by intros [_ [? ?]]].
      * split; [by intros [? ?]|]. intros [H _]. by destruct (H eq_refl).
Qed.

Lemma Framework_field_names (f : Framework) (fs : list (string * bool * GoValue)) :
  reflect_Framework f = VStruct fs -> NoDup (map field_name fs).
Proof. intros [= <-]. by apply (bool_decide_unpack _). Qed.

(** X6.  The document of a framework.  It exists exactly when the score
    is neither a NaN nor an infinity.  The name, the status and the
    score are always members (an empty name is written as the empty
    string); the name and the status are written as the text of what is
    stored, which is the stored string when it is valid UTF-8 and has
    U+FFFD for every byte outside a valid encoding otherwise; the keys
    come in the order of the struct's fields.  A framework just made by
    [NewFramework] has these three members and no other, the name and
    the status being the strings given when they are valid UTF-8: its
    empty controls are left out. *)
Theorem Framework_document (fmt : Time -> option string)
    (iter : gmap string (option json) -> list (string * option json))
    (f : Framework) :
  (is_Some (marshal fmt iter (reflect_Framework f)) <-> finite_score f) /\
  (forall ms, marshal fmt iter (reflect_Framework f) = Some (JObject ms) ->
     member "name" ms = Some (JString (json_text (Framework_Name f))) /\
     member "status" ms = Some (JString (json_text (Framework_Status f))) /\
     (valid_UTF8 (Framework_Name f) ->
      member "name" ms = Some (JString (Framework_Name f))) /\
     (valid_UTF8 (Framework_Status f) ->
      member "status" ms = Some (JString (Framework_Status f))) /\
     member "score" ms = Some (JNumber (NFloat (Framework_Score f))) /\
     keys ms `sublist_of` [ "name"; "version"; "status"; "score"; "last_audit";
                            "auditor"; "report_ref"; "certificate_ref"; "controls" ]) /\
  (forall name status score,
     finite_score (NewFramework name status score) ->
     marshal fmt iter (reflect_Framework (NewFramework name status score))
     = Some (JObject [ ("name", JString (json_text name));
                       ("status", JString (json_text status));
                       ("score", JNumber (NFloat score)) ])) /\
  (forall name status score,
     finite_score (NewFramework name status score) ->
     valid_UTF8 name -> valid_UTF8 status ->
     marshal fmt iter (reflect_Framework (NewFramework name status score))
     = Some (JObject [ ("name", JString name);
                       ("status", JString status);
                       ("score", JNumber (NFloat score)) ])).
Proof.
  split; [|split; [|split]].
  - split; [|apply marshal_Framework_is_Some].
    unfold reflect_Framework. cbn [marshal]. rewrite fmap_is_Some.
    rewrite encode_fields_is_Some_iff, !Forall_cons. unfold written. simpl.
    intros (_ & _ & _ & Hscore & _). unfold finite_score.
    destruct (PrimFloat.is_nan _ || PrimFloat.is_infinity _); [|done].
    by destruct (Hscore eq_refl).
  - intros ms Hdoc.
    pose proof (Framework_field_names f _ eq_refl) as Hnames.
    apply marshal_struct in Hdoc as (ms' & [= <-] & Henc).
    assert (member "name" ms = Some (JString (json_text (Framework_Name f)))) as Hname.
    { destruct (encode_fields_emitted _ "name" false (VString (Framework_Name f))
                  _ _ Henc Hnames) as (j & [= <-] & Hm); [set_solver|done|done]. }
    assert (member "status" ms = Some (JString (json_text (Framework_Status f)))) as Hst.
    { destruct (encode_fields_emitted _ "status" false (VString (Framework_Status f))
                  _ _ Henc Hnames) as (j & [= <-] & Hm); [set_solver|done|done]. }
    split; [exact Hname|]. split; [exact Hst|].
    split; [by intros <-|]. split; [by intros <-|]. split.
    + destruct (encode_fields_emitted _ "score" false (VFloat (Framework_Score f))
                  _ _ Henc Hnames) as (j & Hj & Hm); [set_solver|done|].
      cbn [marshal] in Hj.
      destruct (PrimFloat.is_nan _ || PrimFloat.is_infinity _); [done|].
      by injection Hj as <-.
    + apply (encode_fields_sublist _ _ _ Henc).
  - intros name status score Hscore. unfold finite_score in Hscore.
    simpl in Hscore. simpl. by rewrite Hscore.
  - intros name status score Hscore Hname Hstatus.
    unfold finite_score in Hscore. unfold valid_UTF8 in Hname, Hstatus.
    simpl in Hscore. simpl. by rewrite Hscore, Hname, Hstatus.
Qed.

Lemma EvidenceRef_field_names (e : EvidenceRef) (fs : list (string * bool * GoValue)) :
  reflect_EvidenceRef e = VStruct fs -> NoDup (map field_name fs).
Proof. intros [= <-]. by apply (bool_decide_unpack _). Qed.

(** X7.  The document of an evidence reference always exists.  The URL
    is always a member, written as the text of what is stored (the
    stored string when it is valid UTF-8, with U+FFFD for every byte
    outside a valid encoding otherwise); the type, the description,
    the expiry and the hash have no member when they are empty; and the
    size has a member exactly when it is not zero, so a size of zero is
    written like a size that was never set. *)
Theorem EvidenceRef_document (fmt : Time -> option string)
    (iter : gmap string (option json) -> list (string * option json))
    (e : EvidenceRef) :
  exists ms,
    marshal fmt iter (reflect_EvidenceRef e) = Some (JObject ms) /\
    member "url" ms = Some (JString (json_text (EvidenceRef_URL e))) /\
    (valid_UTF8 (EvidenceRef_URL e) ->
     member "url" ms = Some (JString (EvidenceRef_URL e))) /\
    (EvidenceRef_Type e = "" -> "type" ∉ keys ms) /\
    (EvidenceRef_Description e = "" -> "description" ∉ keys ms) /\
    (EvidenceRef_Expires e = "" -> "expires" ∉ keys ms) /\
    (EvidenceRef_Hash e = "" -> "hash" ∉ keys ms) /\
    (EvidenceRef_SizeBytes e = 0%Z -> "size_bytes" ∉ keys ms) /\
    (EvidenceRef_SizeBytes e <> 0%Z ->
     member "size_bytes" ms = Some (JNumber (NInt (EvidenceRef_SizeBytes e)))).
Proof.
  pose proof (EvidenceRef_field_names e _ eq_refl) as Hnames.
  assert (is_Some (encode_fields (marshal fmt iter)
            [("type", true, VString (EvidenceRef_Type e));
             ("description", true, VString (EvidenceRef_Description e));
             ("url", false, VString (EvidenceRef_URL e));
             ("expires", true, VString (EvidenceRef_Expires e));
             ("hash", true, VString (EvidenceRef_Hash e));
             ("size_bytes", true, VInt (EvidenceRef_SizeBytes e))])) as [ms Henc].
  { apply encode_fields_is_Some.
    repeat (apply Forall_cons; split; [by eexists|]). apply Forall_nil_2. }
  exists ms. unfold reflect_EvidenceRef. cbn [marshal]. rewrite Henc.
  split; [done|].
  assert (member "url" ms = Some (JString (json_text (EvidenceRef_URL e)))) as Hurl.
  { destruct (encode_fields_emitted _ "url" false (VString (EvidenceRef_URL e))
                _ _ Henc Hnames) as (j & [= <-] & Hm); [set_solver|done|done]. }
  split; [exact Hurl|]. split; [by intros <-|]. repeat split.
  - intros Hempty. field_omitted Henc.
  - intros Hempty. field_omitted Henc.
  - intros Hempty. field_omitted Henc.
  - intros Hempty. field_omitted Henc.
  - intros Hempty.
    apply (encode_fields_omitted _ _ _ _ Henc). intros o v Hin.
    which_field Hin. split; [done|]. simpl. by rewrite Hempty.
  - intros Hsize.
    destruct (encode_fields_emitted _ "size_bytes" true (VInt (EvidenceRef_SizeBytes e))
                _ _ Henc Hnames) as (j & [= <-] & Hm); [set_solver| |done].
    simpl. by apply Z.eqb_neq.
Qed.

Lemma add_controls_snoc (cs : list Control) (c : Control) (f : Framework) :
  add_controls (cs ++ [c]) f = AddControl c (add_controls cs f).
Proof. unfold add_controls. by rewrite fold_left_app. Qed.

Lemma add_controls_fields (cs : list Control) (f : Framework) :
  elems (Framework_Controls (add_controls cs f)) = elems (Framework_Controls f) ++ cs /\
  Framework_Name (add_controls cs f) = Framework_Name f /\
  Framework_Status (add_controls cs f) = Framework_Status f /\
  Framework_Score (add_controls cs f) = Framework_Score f.
Proof.
  induction cs as [|c cs IH] using rev_ind.
  - by rewrite app_nil_r.
  - rewrite add_controls_snoc. destruct IH as (Hc & Hn & Hs & Hsc).
    simpl. by rewrite Hc, app_assoc.
Qed.

(** X8.  Controls.  A chain of [AddControl] calls keeps the controls in
    call order after those the framework had, and keeps its name, status
    and score.  In the framework's document the controls have no member
    while there is none, and are an array with one document per control,
    in the same order, once there is one.  A control just made by
    [NewControl] is written with the text of its id and of its status
    and nothing else: the id and the status themselves when they are
    valid UTF-8. *)
Theorem AddControl_chain (fmt : Time -> option string)
    (iter : gmap string (option json) -> list (string * option json))
    (f : Framework) (cs : list Control) :
  elems (Framework_Controls (add_controls cs f)) = elems (Framework_Controls f) ++ cs /\
  Framework_Name (add_controls cs f) = Framework_Name f /\
  Framework_Status (add_controls cs f) = Framework_Status f /\
  Framework_Score (add_controls cs f) = Framework_Score f /\
  (forall ms, marshal fmt iter (reflect_Framework (add_controls cs f)) = Some (JObject ms) ->
     (elems (Framework_Controls f) ++ cs = [] -> "controls" ∉ keys ms) /\
     (elems (Framework_Controls f) ++ cs <> [] ->
      exists items,
        member "controls" ms = Some (JArray items) /\
        Forall2 (fun c j => marshal fmt iter (reflect_Control c) = Some j)
          (elems (Framework_Controls f) ++ cs) items)) /\
  (forall id status,
     marshal fmt iter (reflect_Control (NewControl id status))
     = Some (JObject [ ("id", JString (json_text id));
                       ("status", JString (json_text status)) ]) /\
     (valid_UTF8 id -> valid_UTF8 status ->
      marshal fmt iter (reflect_Control (NewControl id status))
      = Some (JObject [ ("id", JString id); ("status", JString status) ]))).
Proof.
  destruct (add_controls_fields cs f) as (Hc & Hn & Hs & Hsc).
  repeat split; try done.
  - intros Hnone.
    pose proof (Framework_field_names (add_controls cs f) _ eq_refl) as Hnames.
    apply marshal_struct in H as (ms' & [= <-] & Henc).
    apply (encode_fields_omitted _ _ _ _ Henc). intros o v Hin.
    which_field Hin. split; [done|]. apply isEmptyValue_slice.
    unfold len. by rewrite Hc, Hnone.
  - intros Hsome.
    pose proof (Framework_field_names (add_controls cs f) _ eq_refl) as Hnames.
    apply marshal_struct in H as (ms' & [= <-] & Henc).
    destruct (isEmptyValue_slice_false reflect_Control
                (Framework_Controls (add_controls cs f)))
      as (l & Hl & Hv & Hne).
    { unfold len. rewrite Hc. by destruct (elems (Framework_Controls f) ++ cs). }
    destruct (encode_fields_emitted _ "controls" true
                (reflect_slice reflect_Control (Framework_Controls (add_controls cs f)))
                _ _ Henc Hnames) as (j & Hj & Hm); [set_solver|by rewrite Hne|].
    rewrite Hv in Hj. cbn [marshal] in Hj.
    destruct (mapM _ _) as [items|] eqn:Hitems; [|done].
    injection Hj as <-. exists items. split; [done|].
    apply mapM_Some, Forall2_fmap_l in Hitems.
    rewrite <- Hc, Hl. exact Hitems.
  - intros Hid Hstatus. unfold valid_UTF8 in Hid, Hstatus.
    rewrite <- Hid at 2. rewrite <- Hstatus at 2. reflexivity.
Qed.

(** ** Serialization: maps *)

Lemma mapM_encoded_entry (es : list (string * option json)) (ems : list (string * json)) :
  mapM encoded_entry es = Some ems ->
  exists raw, es = prod_map id Some <$> raw /\ ems = written_entry <$> raw.
Proof.
  rewrite mapM_Some. induction 1 as [|[k o] [k' j] es ems He _ (raw & -> & ->)].
  - by exists [].
  - unfold encoded_entry in He. simpl in He. destruct o as [j'|]; [|done].
    simpl in He. injection He as <- ->. by exists ((k, j) :: raw).
Qed.

Lemma member_NoDup (k : string) (x : json) (ms : list (string * json)) :
  NoDup (keys ms) -> (k, x) ∈ ms -> member k ms = Some x.
Proof.
  induction ms as [|[k' x'] ms IH]; intros Hnd Hin; [by apply elem_of_nil in Hin|].
  simpl in Hnd. apply NoDup_cons in Hnd as [Hk Hnd]. simpl.
  apply elem_of_cons in Hin as [Heq|Hin].
  - injection Heq as -> ->. by rewrite String.eqb_refl.
  - destruct (String.eqb k k') eqn:Hkk; [|by apply IH].
    apply String.eqb_eq in Hkk as <-. exfalso. apply Hk.
    apply list_elem_of_fmap. by exists (k, x).
Qed.

(** The object written for a map: the entries of the map with their
    encoded values, taken in ascending bytewise order of the Go keys,
    each written under the text of its key. *)
Lemma marshal_map (fmt : Time -> option string)
    (iter : gmap string (option json) -> list (string * option json))
    (m : gmap string GoValue) (j : json) :
  iteration_order iter ->
  marshal fmt iter (VMap m) = Some j ->
  exists raw, j = JObject (written_entry <$> raw) /\
    Sorted string_le (keys raw) /\
    NoDup (keys raw) /\
    (forall k x, (k, x) ∈ raw <-> exists v, m !! k = Some v /\ marshal fmt iter v = Some x).
Proof.
  intros Hiter. cbn [marshal].
  destruct (mapM encoded_entry _) as [ems|] eqn:Hems; [|done].
  intros [= <-].
  apply mapM_encoded_entry in Hems as (raw & Hraw & ->).
  exists raw. split; [done|].
  set (M := marshal fmt iter <$> m) in *.
  assert (keys raw = (merge_sort key_le (iter M)).*1) as Hkeys.
  { rewrite Hraw. unfold keys. rewrite <- list_fmap_compose.
    apply list_fmap_ext. by intros i [k x] _. }
  assert (merge_sort key_le (iter M) ≡ₚ map_to_list M) as Hperm.
  { by rewrite merge_sort_Permutation, (Hiter M). }
  split; [|split].
  - rewrite Hkeys. apply (Sorted_fmap fst key_le string_le); [done|].
    apply Sorted_merge_sort, _.
  - rewrite Hkeys, Hperm. apply NoDup_fst_map_to_list.
  - intros k x.
    assert ((k, x) ∈ raw <-> (k, Some x) ∈ merge_sort key_le (iter M)) as ->.
    { rewrite Hraw, list_elem_of_fmap. split.
      - intros Hin. by exists (k, x).
      - intros ([k' x'] & [= -> ->] & Hin). done. }
    rewrite Hperm, elem_of_map_to_list. unfold M. rewrite lookup_fmap.
    destruct (m !! k) as [v|]; simpl.
    + split; [intros [= H]; by exists v|]. by intros (v' & [= <-] & ->).
    + split; [done|]. by intros (v' & ? & _).
Qed.

(** Every value of a map that encodes does. *)
Lemma marshal_map_values (fmt : Time -> option string)
    (iter : gmap string (option json) -> list (string * option json))
    (m : gmap string GoValue) (k : string) (v : GoValue) :
  iteration_order iter ->
  is_Some (marshal fmt iter (VMap m)) ->
  m !! k = Some v ->
  is_Some (marshal fmt iter v).
Proof.
  intros Hiter Hall Hv. cbn [marshal] in Hall.
  apply fmap_is_Some, mapM_is_Some in Hall. rewrite Forall_forall in Hall.
  destruct (marshal fmt iter v) as [x|] eqn:Hx; [by eexists|].
  exfalso. specialize (Hall (k, None)).
  enough (is_Some (encoded_entry (k, None))) as [? ?]; [done|].
  apply Hall. rewrite merge_sort_Permutation, (Hiter _).
  apply elem_of_map_to_list. by rewrite lookup_fmap, Hv; simpl; rewrite Hx.
Qed.

Example colliding_keys :
  marshal sample_format map_to_list (VMap {[ byte_FF := VInt 1; byte_FE := VInt 2 ]})
  = Some (JObject [ (replacement, JNumber (NInt 2)); (replacement, JNumber (NInt 1)) ]).
Proof. vm_compute. reflexivity. Qed.

(** X9.  The extensions in a posture's document.  When the posture has
    at least one extension, the document has an extensions object with
    one member per key of the map: the entries come in ascending
    bytewise order of the stored keys, none twice, whatever the order of
    the [AddExtension] calls and of the runtime's map iteration, each
    with the encoding of its value, and each is written under the text
    of its key.  When every key is valid UTF-8 the written keys are the
    stored keys, so they are ascending and none repeats, and each key's
    member is the encoding of the value stored under it; keys that are
    not valid UTF-8 are written with U+FFFD and may then repeat. *)
Theorem extensions_document (fmt : Time -> option string)
    (iter : gmap string (option json) -> list (string * option json))
    (p : Posture) (ms : list (string * json)) :
  iteration_order iter ->
  result_of (ToJSON fmt iter) p = Some (JObject ms) ->
  ~ no_extensions p ->
  exists raw,
    member "extensions" ms = Some (JObject (written_entry <$> raw)) /\
    Sorted string_le (keys raw) /\
    NoDup (keys raw) /\
    (forall k, k ∈ keys raw <-> is_Some (entries (Posture_Extensions p) !! k)) /\
    (forall k v, entries (Posture_Extensions p) !! k = Some v ->
                 exists x, marshal fmt iter v = Some x /\ (k, x) ∈ raw) /\
    ((forall k, is_Some (entries (Posture_Extensions p) !! k) -> valid_UTF8 k) ->
     written_entry <$> raw = raw /\
     forall k v, entries (Posture_Extensions p) !! k = Some v ->
                 member k (written_entry <$> raw) = marshal fmt iter v).
Proof.
  intros Hiter Hdoc Hsome.
  unfold result_of, ToJSON, load in Hdoc. cbn [fst] in Hdoc.
  pose proof (Posture_field_names p _ eq_refl) as Hnames.
  apply marshal_struct in Hdoc as (ms' & [= <-] & Henc).
  unfold no_extensions in Hsome.
  destruct (Posture_Extensions p) as [m|] eqn:Hext; [|done].
  destruct (encode_fields_emitted _ "extensions" true (VMap m) _ _ Henc Hnames)
    as (j & Hj & Hm).
  { set_solver. }
  { simpl. by apply Nat.eqb_neq. }
  destruct (marshal_map fmt iter m j Hiter Hj) as (raw & -> & Hsorted & Hnd & Hmem).
  assert (forall k v, m !! k = Some v -> exists x, marshal fmt iter v = Some x /\ (k, x) ∈ raw)
    as Hvalues.
  { intros k v Hv.
    destruct (marshal_map_values fmt iter m k v Hiter) as [x Hx]; [by eexists|done|].
    exists x. split; [done|]. apply Hmem. by exists v. }
  assert (forall k, k ∈ keys raw <-> is_Some (m !! k)) as Hkeys.
  { intros k. split.
    - intros ([k' x] & -> & Hin)%list_elem_of_fmap.
      apply Hmem in Hin as (v & Hv & _). by exists v.
    - intros [v Hv]. destruct (Hvalues k v Hv) as (x & _ & Hin).
      apply list_elem_of_fmap. by exists (k, x). }
  exists raw. unfold entries. simpl.
  split; [done|]. split; [done|]. split; [done|]. split; [done|]. split; [done|].
  intros Hvalid.
  assert (written_entry <$> raw = raw) as Hsame.
  { rewrite <- (list_fmap_id raw) at 2. apply list_fmap_ext.
    intros i [k x] Hi. unfold written_entry. simpl. f_equal.
    apply Hvalid, Hkeys. apply list_elem_of_fmap. exists (k, x).
    split; [done|]. by eapply list_elem_of_lookup_2. }
  split; [done|]. intros k v Hv. rewrite Hsame.
  destruct (Hvalues k v Hv) as (x & -> & Hin). by apply member_NoDup.
Qed.

Lemma sample_members_document : sample_document = JObject sample_members.
Proof. reflexivity. Qed.

Lemma extensions_document_witness :
  exists raw,
    member "extensions" sample_members = Some (JObject (written_entry <$> raw)) /\
    Sorted string_le (keys raw) /\
    NoDup (keys raw) /\
    (forall k, k ∈ keys raw <-> is_Some (entries (Posture_Extensions sample_posture) !! k)) /\
    (forall k v, entries (Posture_Extensions sample_posture) !! k = Some v ->
                 exists x, marshal sample_format map_to_list v = Some x /\ (k, x) ∈ raw) /\
    ((forall k, is_Some (entries (Posture_Extensions sample_posture) !! k) -> valid_UTF8 k) ->
     written_entry <$> raw = raw /\
     forall k v, entries (Posture_Extensions sample_posture) !! k = Some v ->
                 member k (written_entry <$> raw) = marshal sample_format map_to_list v).
Proof.
  apply (extensions_document sample_format map_to_list sample_posture sample_members).
  - exact map_to_list_iteration_order.
  - vm_compute. reflexivity.
  - vm_compute. discriminate.
Defined.

(** ** Serialization: when it fails *)

Lemma marshal_Organization_is_Some (fmt : Time -> option string)
    (iter : gmap string (option json) -> list (string * option json))
    (o : option Organization) :
  is_Some (marshal fmt iter (reflect_ptr reflect_Organization o)).
Proof.
  destruct o as [o|]; [|by eexists].
  cbn [reflect_ptr reflect_Organization marshal]. apply fmap_is_Some.
  apply encode_fields_is_Some.
  repeat (apply Forall_cons; split; [by eexists|]). apply Forall_nil_2.
Qed.

Lemma marshal_Framework_finite (fmt : Time -> option string)
    (iter : gmap string (option json) -> list (string * option json))
    (f : Framework) :
  is_Some (marshal fmt iter (reflect_Framework f)) <-> finite_score f.
Proof.
  split; [|apply marshal_Framework_is_Some].
  unfold reflect_Framework. cbn [marshal]. rewrite fmap_is_Some.
  rewrite encode_fields_is_Some_iff, !Forall_cons. unfold written. simpl.
  intros (_ & _ & _ & Hscore & _). unfold finite_score.
  destruct (PrimFloat.is_nan _ || PrimFloat.is_infinity _); [|done].
  by destruct (Hscore eq_refl).
Qed.

Lemma no_extensions_empty (p : Posture) :
  no_extensions p <-> isEmptyValue (reflect_map (Posture_Extensions p)) = true.
Proof.
  unfold no_extensions. destruct (Posture_Extensions p) as [m|]; simpl; [|done].
  by rewrite Nat.eqb_eq.
Qed.

(** What makes the encoding of a posture succeed. *)
Lemma marshal_Posture_is_Some_iff (fmt : Time -> option string)
    (iter : gmap string (option json) -> list (string * option json))
    (p : Posture) :
  is_Some (marshal fmt iter (reflect_Posture p))
  <-> is_Some (fmt (Posture_Timestamp p)) /\
      Forall finite_score (elems (Posture_Frameworks p)) /\
      Forall (fun v => is_Some (marshal fmt iter v)) (elems (Posture_EvidenceRefs p)) /\
      (no_extensions p \/ is_Some (marshal fmt iter (reflect_map (Posture_Extensions p)))).
Proof.
  unfold reflect_Posture. cbn [marshal]. rewrite fmap_is_Some.
  rewrite encode_fields_is_Some_iff, !Forall_cons. unfold written. cbn [fst snd andb negb].
  rewrite no_extensions_empty.
  assert (is_Some (marshal fmt iter (VTime (Posture_Timestamp p)))
          <-> is_Some (fmt (Posture_Timestamp p))) as Hts.
  { cbn [marshal]. apply fmap_is_Some. }
  assert (is_Some (marshal fmt iter (reflect_slice reflect_Framework (Posture_Frameworks p)))
          <-> Forall finite_score (elems (Posture_Frameworks p))) as Hfs.
  { destruct (Posture_Frameworks p) as [fs|]; simpl.
    - rewrite fmap_is_Some, mapM_is_Some, Forall_fmap.
      apply Forall_iff. intros f. apply marshal_Framework_finite.
    - split; [constructor|by eexists]. }
  assert ((negb (isEmptyValue (reflect_slice id (Posture_EvidenceRefs p))) = true ->
           is_Some (marshal fmt iter (reflect_slice id (Posture_EvidenceRefs p))))
          <-> Forall (fun v => is_Some (marshal fmt iter v))
                (elems (Posture_EvidenceRefs p))) as Hrefs.
  { destruct (Posture_EvidenceRefs p) as [rs|]; simpl.
    - rewrite fmap_is_Some, mapM_is_Some, Forall_fmap, length_map.
      destruct rs as [|r rs]; simpl; [|tauto].
      split; [constructor|done].
    - split; [constructor|done]. }
  rewrite Hts, Hfs, Hrefs.
  pose proof (marshal_Organization_is_Some fmt iter (Posture_Organization p)) as Horg.
  assert (forall s, is_Some (marshal fmt iter (VString s))) as Hstr by by eexists.
  destruct (isEmptyValue (reflect_map (Posture_Extensions p))); simpl.
  - split.
    + intros (_ & Ht & _ & _ & Hf & Hr & _). auto.
    + intros (Ht & Hf & Hr & _). repeat split; auto. done.
  - split.
    + intros (_ & Ht & _ & _ & Hf & Hr & He & _). auto 6.
    + intros (Ht & Hf & Hr & [He|He]); [done|]. repeat split; auto.
Qed.

(** X10.  [ToJSON] returns a document exactly when the timestamp has an
    RFC 3339 text, every framework's score is a finite number, every
    evidence reference can be encoded and the extensions are empty or
    can be encoded; otherwise it returns an error.  In particular one
    framework whose score is a NaN or an infinity, which [AddFramework]
    accepts, makes the whole posture fail to serialize. *)
Theorem ToJSON_succeeds_iff (fmt : Time -> option string)
    (iter : gmap string (option json) -> list (string * option json))
    (p : Posture) :
  (is_Some (result_of (ToJSON fmt iter) p)
   <-> is_Some (fmt (Posture_Timestamp p)) /\
       Forall finite_score (elems (Posture_Frameworks p)) /\
       Forall (fun v => is_Some (marshal fmt iter v)) (elems (Posture_EvidenceRefs p)) /\
       (no_extensions p \/
        is_Some (marshal fmt iter (reflect_map (Posture_Extensions p))))) /\
  (forall f, ~ finite_score f ->
     result_of (ToJSON fmt iter) (receiver_after (AddFramework f) p) = None).
Proof.
  split.
  - unfold result_of, ToJSON, load. cbn [fst]. apply marshal_Posture_is_Some_iff.
  - intros f Hf. unfold result_of, ToJSON, load. cbn [fst].
    apply eq_None_not_Some. rewrite marshal_Posture_is_Some_iff.
    intros (_ & Hfs & _). apply Hf.
    assert (elems (Posture_Frameworks (receiver_after (AddFramework f) p))
            = elems (Posture_Frameworks p) ++ [f]) as E by reflexivity.
    rewrite E, Forall_app, Forall_singleton in Hfs. tauto.
Qed.

(** ** The handler: every response *)

(** The response of the handler on a fresh response writer, by cases. *)
Lemma serve_cases (fmt : Time -> option string)
    (iter : gmap string (option json) -> list (string * option json))
    (provider : unit -> provided) (r : Request) :
  serve fmt iter provider r
  = if negb (String.eqb (Request_Method r) "GET")
    then error_response "Method not allowed" StatusMethodNotAllowed
    else match snd (provider tt) with
         | Some _ => error_response "Internal server error" StatusInternalServerError
         | None =>
             if String.eqb (Values_Get (Request_Query r) "format") "yaml"
             then error_response yaml_note StatusNotImplemented
             else match marshal fmt iter (reflect_ptr reflect_Posture (fst (provider tt))) with
                  | None => error_response "Failed to serialize posture"
                              StatusInternalServerError
                  | Some doc => ok_response doc
                  end
         end.
Proof.
  unfold serve, Handler.
  destruct (negb (String.eqb (Request_Method r) "GET")); [reflexivity|].
  destruct (provider tt) as [posture [e|]]; [reflexivity|]. cbn [fst snd].
  destruct (String.eqb (Values_Get (Request_Query r) "format") "yaml"); [reflexivity|].
  destruct (marshal fmt iter (reflect_ptr reflect_Posture posture)); reflexivity.
Qed.


(** X12.  A GET request with [format=yaml] whose provider succeeds gets
    status 501.  The handler sets the content type to
    [application/json] first, but [http.Error] replaces it: the response
    goes out as [text/plain; charset=utf-8], its body is the JSON text
    of the note followed by a newline, and it has no version header.
    Only the first value of [format] counts. *)
Theorem Handler_yaml (fmt : Time -> option string)
    (iter : gmap string (option json) -> list (string * option json))
    (provider : unit -> provided) (r : Request) (posture : option Posture)
    (more : list string) :
  Request_Method r = "GET" ->
  provider tt = (posture, None) ->
  Request_Query r !! "format" = Some ("yaml" :: more) ->
  serve fmt iter provider r = error_response yaml_note StatusNotImplemented /\
  response_header (serve fmt iter provider r) "Content-Type" = "text/plain; charset=utf-8" /\
  response_header (serve fmt iter provider r) "X-CPX-Version" = "" /\
  body (serve fmt iter provider r) = [Text (String.append yaml_note newline)].
Proof.
  intros Hm Hp Hf. rewrite serve_cases, Hm, Hp. unfold Values_Get. rewrite Hf.
  repeat split.
Qed.

Lemma Handler_yaml_witness :
  serve sample_format map_to_list sample_provider get_cpx_yaml
  = error_response yaml_note StatusNotImplemented /\
  response_header (serve sample_format map_to_list sample_provider get_cpx_yaml)
    "Content-Type" = "text/plain; charset=utf-8" /\
  response_header (serve sample_format map_to_list sample_provider get_cpx_yaml)
    "X-CPX-Version" = "" /\
  body (serve sample_format map_to_list sample_provider get_cpx_yaml)
  = [Text (String.append yaml_note newline)].
Proof.
  apply (Handler_yaml sample_format map_to_list sample_provider get_cpx_yaml
           (Some sample_posture) []); reflexivity.
Defined.

(** X13.  What the handler keeps to itself.  The answer to a request
    whose method is not GET is one fixed response, whatever the provider
    and the query: the provider's result plays no part.  The answer to a
    GET request whose provider fails is one fixed response too, whatever
    the error, the posture returned with it and the query: the text of
    the error is never sent. *)
Theorem Handler_fixed_errors (fmt : Time -> option string)
    (iter : gmap string (option json) -> list (string * option json))
    (provider : unit -> provided) (r : Request) :
  (Request_Method r <> "GET" ->
   serve fmt iter provider r
   = error_response "Method not allowed" StatusMethodNotAllowed) /\
  (Request_Method r = "GET" ->
   forall posture e, provider tt = (posture, Some e) ->
     serve fmt iter provider r
     = error_response "Internal server error" StatusInternalServerError).
Proof.
  split.
  - intros Hm. rewrite serve_cases. apply String.eqb_neq in Hm. by rewrite Hm.
  - intros Hm posture e Hp. rewrite serve_cases, Hm, Hp. reflexivity.
Qed.

(** X14.  A provider that returns neither a posture nor an error: the
    handler does not check the pointer, and answers a GET request with
    status 200, the version header and the document [null]. *)
Theorem Handler_nil_posture (fmt : Time -> option string)
    (iter : gmap string (option json) -> list (string * option json))
    (provider : unit -> provided) (r : Request) :
  Request_Method r = "GET" ->
  provider tt = (None, None) ->
  Values_Get (Request_Query r) "format" <> "yaml" ->
  serve fmt iter provider r = ok_response JNull /\
  response_status (serve fmt iter provider r) = Some 200 /\
  body (serve fmt iter provider r) = [Document JNull].
Proof.
  intros Hm Hp Hf. rewrite serve_cases, Hm, Hp.
  apply String.eqb_neq in Hf. rewrite Hf. repeat split.
Qed.

Lemma Handler_nil_posture_witness :
  serve sample_format map_to_list nil_provider get_cpx = ok_response JNull /\
  response_status (serve sample_format map_to_list nil_provider get_cpx) = Some 200 /\
  body (serve sample_format map_to_list nil_provider get_cpx) = [Document JNull].
Proof.
  apply (Handler_nil_posture sample_format map_to_list nil_provider get_cpx).
  - reflexivity.
  - reflexivity.
  - vm_compute. discriminate.
Defined.

(** X15.  A posture that does not serialize.  When the provider returns
    a posture in which some framework's score is a NaN or an infinity,
    a GET request (not for YAML) gets status 500 with the line
    [Failed to serialize posture], no document and no version header. *)
Theorem Handler_unserializable (fmt : Time -> option string)
    (iter : gmap string (option json) -> list (string * option json))
    (provider : unit -> provided) (r : Request) (p : Posture) :
  Request_Method r = "GET" ->
  provider tt = (Some p, None) ->
  Values_Get (Request_Query r) "format" <> "yaml" ->
  Exists (fun f => ~ finite_score f) (elems (Posture_Frameworks p)) ->
  serve fmt iter provider r
  = error_response "Failed to serialize posture" StatusInternalServerError /\
  response_status (serve fmt iter provider r) = Some 500 /\
  response_header (serve fmt iter provider r) "X-CPX-Version" = "".
Proof.
  intros Hm Hp Hf Hbad. rewrite serve_cases, Hm, Hp.
  apply String.eqb_neq in Hf. rewrite Hf. cbn [negb String.eqb fst snd reflect_ptr].
  assert (marshal fmt iter (reflect_Posture p) = None) as ->.
  { apply eq_None_not_Some. rewrite marshal_Posture_is_Some_iff.
    intros (_ & Hfs & _). by apply Exists_not_Forall in Hbad. }
  repeat split.
Qed.

Lemma Handler_unserializable_witness :
  serve sample_format map_to_list nan_provider get_cpx
  = error_response "Failed to serialize posture" StatusInternalServerError /\
  response_status (serve sample_format map_to_list nan_provider get_cpx) = Some 500 /\
  response_header (serve sample_format map_to_list nan_provider get_cpx) "X-CPX-Version"
  = "".
Proof.
  apply (Handler_unserializable sample_format map_to_list nan_provider get_cpx nan_posture).
  - reflexivity.
  - reflexivity.
  - vm_compute. discriminate.
  - apply Exists_cons_hd. vm_compute. discriminate.
Defined.

(** X16.  The middleware routes on the exact path [/cpx].  On that path
    the response is the handler's, whatever the wrapped handler would
    do, and a request whose method is not GET is answered with 405
    rather than passed on.  On every other path, [/cpx/] and [/CPX]
    included, the response is the wrapped handler's, whatever the
    provider. *)
Theorem Middleware_routes (fmt : Time -> option string)
    (iter : gmap string (option json) -> list (string * option json))
    (provider : unit -> provided) (next : string -> Request -> writer unit)
    (r : Request) (w : ResponseWriter) :
  Middleware fmt iter provider next "/cpx" r w = Handler fmt iter provider r w /\
  (Request_Method r <> "GET" ->
   response_status (snd (Middleware fmt iter provider next "/cpx" r new_ResponseWriter))
   = Some StatusMethodNotAllowed) /\
  (forall path, path <> "/cpx" ->
     Middleware fmt iter provider next path r w = next path r w) /\
  Middleware fmt iter provider next "/cpx/" r w = next "/cpx/" r w /\
  Middleware fmt iter provider next "/CPX" r w = next "/CPX" r w.
Proof.
  repeat split.
  - intros Hm. unfold Middleware. cbn [String.eqb Ascii.eqb Bool.eqb].
    change (response_status (serve fmt iter provider r) = Some StatusMethodNotAllowed).
    rewrite serve_cases. apply String.eqb_neq in Hm. by rewrite Hm.
  - intros path Hpath. unfold Middleware.
    apply String.eqb_neq in Hpath. by rewrite Hpath.
Qed.

(** ** Serialization of a posture made with the builder *)

Lemma encode_fields_key_written (enc : GoValue -> option json) (k : string)
    (fs : list (string * bool * GoValue)) (ms : list (string * json)) :
  encode_fields enc fs = Some ms ->
  k ∈ keys ms -> exists o v, (k, o, v) ∈ fs /\ o && isEmptyValue v = false.
Proof.
  revert ms. induction fs as [|[[n o] v] fs IH]; intros ms Henc Hk; simpl in Henc.
  - injection Henc as <-. by apply elem_of_nil in Hk.
  - destruct (o && isEmptyValue v) eqn:Hskip.
    + destruct (IH ms Henc Hk) as (o' & v' & Hin & Hw).
      exists o', v'. split; [by right|done].
    + destruct (enc v) as [j|]; [|done]. simpl in Henc.
      destruct (encode_fields enc fs) as [ms'|] eqn:Hrest; [|done].
      injection Henc as <-. simpl in Hk.
      apply elem_of_cons in Hk as [->|Hk].
      * exists o, v. split; [by left|done].
      * destruct (IH ms' eq_refl Hk) as (o' & v' & Hin & Hw).
        exists o', v'. split; [by right|done].
Qed.

(** X17.  The document of a posture made by [NewPosture] and builder
    calls.  The version is v1 and the timestamp is the text of the
    construction time in UTC; the frameworks are an array, never
    [null], with the document of each added framework in call order;
    there is no evidence-references member, since no builder call sets
    them; the organization has a member exactly when [SetOrganization]
    was called, and the extensions exactly when [AddExtension] was. *)
Theorem built_posture_document (fmt : Time -> option string)
    (iter : gmap string (option json) -> list (string * option json))
    (now : Time) (cs : list builder_call) (ms : list (string * json)) :
  result_of (ToJSON fmt iter) (run_calls cs (NewPosture now)) = Some (JObject ms) ->
  member "version" ms = Some (JString "v1") /\
  member "timestamp" ms = (JString <$> fmt (Time_UTC now)) /\
  (exists items,
     member "frameworks" ms = Some (JArray items) /\
     Forall2 (fun f j => marshal fmt iter (reflect_Framework f) = Some j)
       (added_frameworks cs) items) /\
  ("evidence_refs" ∉ keys ms) /\
  ("organization" ∈ keys ms <-> is_Some (last_organization cs)) /\
  ("extensions" ∈ keys ms <-> exists k, is_Some (last_extension k cs)).
Proof.
  destruct (run_calls_NewPosture now cs) as (Hv & Ht & He & Hf & _ & Ho & Hx & Hn).
  set (p := run_calls cs (NewPosture now)) in *.
  unfold result_of, ToJSON, load. cbn [fst]. intros Hdoc.
  pose proof (Posture_field_names p _ eq_refl) as Hnames.
  apply marshal_struct in Hdoc as (ms' & [= <-] & Henc).
  split; [|split; [|split; [|split; [|split]]]].
  - destruct (encode_fields_emitted _ "version" false (VString (Posture_Version p))
                _ _ Henc Hnames) as (j & [= <-] & Hm); [set_solver|done|].
    by rewrite Hm, Hv.
  - destruct (encode_fields_emitted _ "timestamp" false (VTime (Posture_Timestamp p))
                _ _ Henc Hnames) as (j & Hj & Hm); [set_solver|done|].
    cbn [marshal] in Hj. by rewrite Hm, <- Ht, Hj.
  - destruct (encode_fields_emitted _ "frameworks" false
                (reflect_slice reflect_Framework (Posture_Frameworks p))
                _ _ Henc Hnames) as (j & Hj & Hm); [set_solver|done|].
    rewrite Hf in Hj. cbn [reflect_slice marshal] in Hj.
    destruct (mapM _ _) as [items|] eqn:Hitems; [|done].
    injection Hj as <-. exists items. split; [done|].
    by apply mapM_Some, Forall2_fmap_l in Hitems.
  - apply (encode_fields_omitted _ _ _ _ Henc). intros o v Hin.
    which_field Hin. split; [done|]. by rewrite He.
  - rewrite <- Ho. split.
    + intros Hk. destruct (encode_fields_key_written _ _ _ _ Henc Hk) as (o & v & Hin & Hw).
      which_field Hin. destruct (Posture_Organization p); [by eexists|done].
    + intros [org Horg].
      destruct (encode_fields_emitted _ "organization" true (reflect_Organization org)
                  _ _ Henc Hnames) as (j & _ & Hm); [rewrite Horg; set_solver|done|].
      by eapply member_in_keys.
  - split.
    + intros Hk. destruct (encode_fields_key_written _ _ _ _ Henc Hk) as (o & v & Hin & Hw).
      which_field Hin.
      destruct (Posture_Extensions p) as [m|] eqn:Hext; [|done].
      simpl in Hw. apply Nat.eqb_neq in Hw.
      destruct (map_choose m) as (k & x & Hkx).
      { intros ->. by rewrite map_size_empty in Hw. }
      exists k. rewrite <- Hx. simpl. by eexists.
    + intros [k [x Hkx]]. rewrite <- Hx in Hkx.
      unfold entries in Hkx.
      destruct (Posture_Extensions p) as [m|] eqn:Hext; simpl in Hkx;
        [|by rewrite lookup_empty in Hkx].
      destruct (encode_fields_emitted _ "extensions" true (VMap m)
                  _ _ Henc Hnames) as (j & _ & Hm); [set_solver| |].
      * simpl. apply Nat.eqb_neq. intros Hsize.
        apply map_size_empty_inv in Hsize. by rewrite Hsize, lookup_empty in Hkx.
      * by eapply member_in_keys.
Qed.

Lemma built_posture_document_witness :
  member "version" sample_members = Some (JString "v1") /\
  member "timestamp" sample_members = (JString <$> sample_format (Time_UTC sample_now)) /\
  (exists items,
     member "frameworks" sample_members = Some (JArray items) /\
     Forall2 (fun f j => marshal sample_format map_to_list (reflect_Framework f) = Some j)
       (added_frameworks sample_calls) items) /\
  ("evidence_refs" ∉ keys sample_members) /\
  ("organization" ∈ keys sample_members <-> is_Some (last_organization sample_calls)) /\
  ("extensions" ∈ keys sample_members <-> exists k, is_Some (last_extension k sample_calls)).
Proof.
  apply (built_posture_document sample_format map_to_list sample_now sample_calls
           sample_members).
  vm_compute. reflexivity.
Defined.

(** ** Aggregation: what is looked at *)

Lemma is_compliant_statuses (fs gs : list Framework) :
  map Framework_Status fs = map Framework_Status gs ->
  map is_compliant fs = map is_compliant gs.
Proof.
  intros H. change (map is_compliant fs)
    with (map (fun f => String.eqb (Framework_Status f) StatusCompliant) fs).
  change (map is_compliant gs)
    with (map (fun f => String.eqb (Framework_Status f) StatusCompliant) gs).
  rewrite <- (map_map Framework_Status (fun s => String.eqb s StatusCompliant) fs).
  rewrite <- (map_map Framework_Status (fun s => String.eqb s StatusCompliant) gs).
  by rewrite H.
Qed.

Lemma posture_loop_statuses (fs gs : list Framework) :
  map is_compliant fs = map is_compliant gs ->
  forall flags, fold_left posture_loop_body fs flags = fold_left posture_loop_body gs flags.
Proof.
  revert gs. induction fs as [|f fs IH]; intros [|g gs] H flags; try done.
  simpl in H. injection H as Hfg H. simpl.
  assert (posture_loop_body flags f = posture_loop_body flags g) as ->.
  { destruct flags as [a b]. unfold posture_loop_body.
    unfold is_compliant in Hfg. by rewrite Hfg. }
  by apply IH.
Qed.

(** X18.  Only the statuses count.  Two postures whose frameworks have
    the same statuses in the same order get the same overall posture,
    whatever the names, scores, controls and other fields of the
    frameworks and whatever the other fields of the postures. *)
Theorem CalculateOverallPosture_statuses_only (p q : Posture) :
  map Framework_Status (elems (Posture_Frameworks p))
  = map Framework_Status (elems (Posture_Frameworks q)) ->
  result_of CalculateOverallPosture p = result_of CalculateOverallPosture q.
Proof.
  intros Hst.
  unfold result_of, CalculateOverallPosture, mbind, state_bind, load, len.
  assert (length (elems (Posture_Frameworks p)) = length (elems (Posture_Frameworks q)))
    as ->.
  { by rewrite <- (length_map Framework_Status), Hst, length_map. }
  rewrite (posture_loop_statuses _ _ (is_compliant_statuses _ _ Hst)).
  destruct (Nat.eqb _ _); [done|].
  by destruct (fold_left _ _ _) as [[|] [|]].
Qed.

Lemma CalculateOverallPosture_statuses_only_witness :
  result_of CalculateOverallPosture (built [soc2; iso27001])
  = result_of CalculateOverallPosture
      (receiver_after (SetPosture PostureNonCompliant) (built [gdpr; pci])).
Proof.
  apply (CalculateOverallPosture_statuses_only (built [soc2; iso27001])
           (receiver_after (SetPosture PostureNonCompliant) (built [gdpr; pci]))).
  reflexivity.
Defined.
